(** * LLMAudit browser client: a shallow embedding of [frontend/app.js]
      and [frontend/login.js], with the properties of the client's
      specification stated and settled over it.

    JavaScript strings are sequences of UTF-16 code units; they are
    modelled as lists of code units ([N]).  The browser's local storage
    and the plain objects the handlers build are finite maps from
    property names to strings.  Handlers that talk to the page, the
    network or the storage take the outcome of the network call as an
    argument and return the new storage together with the trace of the
    effects they performed, in program order. *)

From Stdlib Require Import List NArith ZArith QArith String Ascii Lia.
From stdpp Require Import gmap strings.
Import ListNotations.

Local Open Scope N_scope.
Local Open Scope list_scope.

(** ** JavaScript strings *)

Module JS.

(** A string value: its UTF-16 code units. *)
Definition jsstring : Type := list N.

(** An ASCII literal of the source, as code units. *)
Definition lit (s : string) : jsstring :=
  map N_of_ascii (list_ascii_of_string s).
Arguments lit s%_string.

(** [ToBoolean] on a string: only the empty string is falsy. *)
Definition truthy (s : jsstring) : bool :=
  match s with
  | [] => false
  | _ :: _ => true
  end.

(** [ToBoolean] on a value that is a string, [null] or [undefined]
    ([None] stands for both: each is falsy). *)
Definition truthy_opt (v : option jsstring) : bool :=
  match v with
  | Some s => truthy s
  | None => false
  end.

(** [a || b] where [a] is a string, [null] or [undefined] and [b] a string. *)
Definition or_else (a : option jsstring) (b : jsstring) : jsstring :=
  match a with
  | Some s => if truthy s then s else b
  | None => b
  end.

(** ECMAScript LineTerminator: LF, CR, LS, PS. *)
Definition isLineTerminator (c : N) : bool :=
  (c =? 10) || (c =? 13) || (c =? 8232) || (c =? 8233).

(** ECMAScript WhiteSpace: TAB, VT, FF, ZWNBSP and the space separators. *)
Definition isWhiteSpace (c : N) : bool :=
  (c =? 9) || (c =? 11) || (c =? 12) || (c =? 32) || (c =? 160)
  || (c =? 5760) || ((8192 <=? c) && (c <=? 8202))
  || (c =? 8239) || (c =? 8287) || (c =? 12288) || (c =? 65279).

(** The characters [String.prototype.trim] strips. *)
Definition isStrWhiteSpaceChar (c : N) : bool :=
  isWhiteSpace c || isLineTerminator c.

Fixpoint dropWhile (p : N -> bool) (s : jsstring) : jsstring :=
  match s with
  | [] => []
  | c :: rest => if p c then dropWhile p rest else s
  end.

Fixpoint takeWhile (p : N -> bool) (s : jsstring) : jsstring :=
  match s with
  | [] => []
  | c :: rest => if p c then c :: takeWhile p rest else []
  end.

Definition trimStart (s : jsstring) : jsstring :=
  dropWhile isStrWhiteSpaceChar s.

Definition trimEnd (s : jsstring) : jsstring :=
  rev (dropWhile isStrWhiteSpaceChar (rev s)).

(** [s.trim()] *)
Definition trim (s : jsstring) : jsstring := trimEnd (trimStart s).

(** [s.replace(/c/g, r)] for a pattern that is the single character [c]:
    every occurrence is replaced, left to right. *)
Fixpoint replaceAll (c : N) (r : jsstring) (s : jsstring) : jsstring :=
  match s with
  | [] => []
  | x :: rest => (if x =? c then r else [x]) ++ replaceAll c r rest
  end.

(** [true] when [p] is a prefix of [s]. *)
Fixpoint startsWith (p s : jsstring) : bool :=
  match p, s with
  | [], _ => true
  | _ :: _, [] => false
  | a :: p', b :: s' => (a =? b) && startsWith p' s'
  end.

End JS.
Import JS.

(** Code units of the characters the source names. *)
Definition ch_amp : N := 38.
Definition ch_lt : N := 60.
Definition ch_gt : N := 62.
Definition ch_quot : N := 34.
Definition ch_apos : N := 39.
Definition ch_colon : N := 58.
Definition ch_nl : N := 10.

(** ** [escapeHtml] (app.js, lines 61-68) *)

Definition escapeHtml (unsafe : jsstring) : jsstring :=
  replaceAll ch_apos (lit "&#039;")
    (replaceAll ch_quot (lit "&quot;")
      (replaceAll ch_gt (lit "&gt;")
        (replaceAll ch_lt (lit "&lt;")
          (replaceAll ch_amp (lit "&amp;") unsafe)))).

(** ** The Result Renderer: [showResults] (app.js, lines 70-98) *)

Module Renderer.

(** *** [label.split(/:(.+)/)]

    [String.prototype.split] with a regular expression runs the
    [RegExp.prototype[Symbol.split]] loop: at every index [q] it tries the
    pattern anchored at [q]; on a match it pushes the text since the end
    of the previous match, then the capture groups, and resumes after the
    match; when the end of the string is reached it pushes what is left.

    [execSep s] is the anchored match of [/:(.+)/] at the head of [s]: a
    colon followed by the longest run of characters other than line
    terminators ([.] does not match those), which must not be empty.  It
    returns the capture and the text after the match. *)

Definition notLineTerminator (c : N) : bool := negb (isLineTerminator c).

Definition execSep (s : jsstring) : option (jsstring * jsstring) :=
  match s with
  | [] => None
  | c :: rest =>
      if c =? ch_colon then
        match takeWhile notLineTerminator rest with
        | [] => None
        | capture => Some (capture, dropWhile notLineTerminator rest)
        end
      else None
  end.

(** The split loop.  [piece] is the text between the end of the previous
    match and the current index, [rest] the text from the current index
    on.  Each step consumes at least one character of [rest]; the fuel
    bounds the number of steps. *)
Fixpoint splitLoop (fuel : nat) (piece rest : jsstring) : list jsstring :=
  match fuel with
  | O => []
  | S fuel' =>
      match rest with
      | [] => [piece]
      | c :: rest' =>
          match execSep rest with
          | None => splitLoop fuel' (piece ++ [c]) rest'
          | Some (capture, after) => piece :: capture :: splitLoop fuel' [] after
          end
      end
  end.

Definition split (label : jsstring) : list jsstring :=
  splitLoop (S (length label)) [] label.

(** [parts[i] ? parts[i].trim() : empty]: the trimmed part when it is
    there and not empty, else the empty string. *)
Definition trimmedPart (parts : list jsstring) (i : nat) : jsstring :=
  match parts !! i with
  | Some p => if truthy p then trim p else []
  | None => []
  end.

Definition title (label : jsstring) : jsstring := trimmedPart (split label) 0.
Definition desc (label : jsstring) : jsstring := trimmedPart (split label) 1.

(** *** The card markup (the template literal of lines 91-94) *)

Definition indent (n : nat) : jsstring := ch_nl :: repeat 32 n.

Definition quoted (s : jsstring) : jsstring := ch_quot :: s ++ [ch_quot].

Definition title_open : jsstring :=
  indent 6 ++ lit "<div class=" ++ quoted (lit "vuln-title") ++ lit "><strong>".
Definition title_close : jsstring := lit "</strong></div>" ++ indent 6.
Definition desc_open : jsstring :=
  lit "<div class=" ++ quoted (lit "vuln-desc") ++ lit ">".
Definition desc_close : jsstring := lit "</div>".

Definition descBlock (safeDesc : jsstring) : jsstring :=
  if truthy safeDesc then desc_open ++ safeDesc ++ desc_close else [].

Definition cardTemplate (safeTitle safeDesc : jsstring) : jsstring :=
  title_open ++ safeTitle ++ title_close ++ descBlock safeDesc ++ indent 4.

Definition cardHtml (label : jsstring) : jsstring :=
  let safeTitle := escapeHtml (title label) in
  let safeDesc := escapeHtml (desc label) in
  cardTemplate safeTitle safeDesc.

(** *** The results container *)

(** An element created by [document.createElement]. *)
Record element := { className : jsstring; innerHTML : jsstring }.

(** [resultsDiv]: the markup last assigned to its [innerHTML] and the
    elements appended since, in order.  Assigning [innerHTML] replaces
    all children. *)
Record container := { markup : jsstring; appended : list element }.

Definition setInnerHTML (html : jsstring) (_ : container) : container :=
  {| markup := html; appended := [] |}.

Definition appendChild (e : element) (d : container) : container :=
  {| markup := markup d; appended := appended d ++ [e] |}.

(** The success body of the predict endpoint.  [labels] is an array of
    strings, and [None] when the body has no such key; [probs] is read but
    never used. *)
Record detection := { labels : option (list jsstring) }.

(** "<div class='small'>未检测到高于阈值的漏洞。</div>" *)
Definition noFindingsHtml : jsstring :=
  lit "<div class='small'>"
  ++ [26410; 26816; 27979; 21040; 39640; 20110; 38408; 20540; 30340; 28431;
      27934; 12290]
  ++ lit "</div>".

Definition card (label : jsstring) : element :=
  {| className := lit "card"; innerHTML := cardHtml label |}.

Definition showResults (data : detection) (resultsDiv : container) : container :=
  let resultsDiv := setInnerHTML [] resultsDiv in
  let labels := match labels data with Some l => l | None => [] end in
  if (length labels =? 0)%nat then setInnerHTML noFindingsHtml resultsDiv
  else fold_left (fun d label => appendChild (card label) d) labels resultsDiv.

(** What the page shows: the cards and the notices of the container. *)
Definition cards (d : container) : list element :=
  List.filter (fun e => bool_decide (className e = lit "card")) (appended d).

Definition notices (d : container) : nat :=
  if bool_decide (markup d = noFindingsHtml) then 1%nat else 0%nat.

End Renderer.

Import Renderer.

(** ** Numbers: [parseFloat] *)

Module Number.

(** A Number: an IEEE 754 binary64 value.  [Finite neg m e] is plus or
    minus [m * 2^e], with [m < 2^53] and [-1074 <= e <= 971], and
    [2^52 <= m] unless [e = -1074] (the subnormal numbers and the two
    zeros): each finite value has one representation. *)
Inductive jsnum :=
| NaN
| Infinity (negative : bool)
| Finite (negative : bool) (mantissa : N) (exponent : Z).

(** [2^k <= p / q], for positive [p] and [q]. *)
Definition pow2_le (k p q : Z) : bool :=
  if (0 <=? k)%Z then (q * 2 ^ k <=? p)%Z else (q <=? p * 2 ^ (- k))%Z.

(** The integer part of the binary logarithm of [p / q], for positive [p]
    and [q]. *)
Definition floorLog2 (p q : Z) : Z :=
  let k := (Z.log2 p - Z.log2 q)%Z in
  if pow2_le k p q then k else (k - 1)%Z.

(** [n / d] rounded to the nearest integer, ties to the even one. *)
Definition roundHalfEven (n d : Z) : Z :=
  let q := (n / d)%Z in
  match (2 * (n mod d) ?= d)%Z with
  | Lt => q
  | Gt => (q + 1)%Z
  | Eq => if Z.even q then q else (q + 1)%Z
  end.

(** The Number value for plus or minus [m * 10^d]: the binary64 nearest
    to it, ties to the even mantissa, the infinity of its sign when the
    rounded value is out of range. *)
Definition toBinary64 (neg : bool) (m : N) (d : Z) : jsnum :=
  if m =? 0 then Finite neg 0 (-1074)
  else
    let p := (if 0 <=? d then Z.of_N m * 10 ^ d else Z.of_N m)%Z in
    let q := (if 0 <=? d then 1 else 10 ^ (- d))%Z in
    let e := Z.max (floorLog2 p q - 52) (-1074) in
    let mant := (if 0 <=? e then roundHalfEven p (q * 2 ^ e)
                 else roundHalfEven (p * 2 ^ (- e)) q)%Z in
    let mant' := (if mant =? 2 ^ 53 then 2 ^ 52 else mant)%Z in
    let e' := (if mant =? 2 ^ 53 then e + 1 else e)%Z in
    if (971 <? e')%Z then Infinity neg else Finite neg (Z.to_N mant') e'.

Definition isDigit (c : N) : bool := (48 <=? c) && (c <=? 57).

Definition digitsValue (ds : jsstring) : N :=
  fold_left (fun acc d => acc * 10 + (d - 48)) ds 0.

(** An optional sign: [-] is 45, [+] is 43. *)
Definition parseSign (s : jsstring) : bool * jsstring :=
  match s with
  | c :: rest =>
      if c =? 45 then (true, rest)
      else if c =? 43 then (false, rest)
      else (false, s)
  | [] => (false, [])
  end.

(** ExponentPart: [e] or [E], an optional sign, at least one digit.  A
    malformed exponent is not part of the literal. *)
Definition parseExponent (s : jsstring) : Z :=
  match s with
  | c :: rest =>
      if (c =? 101) || (c =? 69) then
        let (neg, rest') := parseSign rest in
        match takeWhile isDigit rest' with
        | [] => 0%Z
        | ds => if neg then (- Z.of_N (digitsValue ds))%Z
                else Z.of_N (digitsValue ds)
        end
      else 0%Z
  | [] => 0%Z
  end.

(** The longest prefix that is a StrUnsignedDecimalLiteral. *)
Definition parseUnsigned (neg : bool) (s : jsstring) : jsnum :=
  if startsWith (lit "Infinity") s then Infinity neg
  else
    let int := takeWhile isDigit s in
    match dropWhile isDigit s with
    | c :: rest =>
        if c =? 46 then
          let frac := takeWhile isDigit rest in
          match int ++ frac with
          | [] => NaN
          | ds => toBinary64 neg (digitsValue ds)
                    (parseExponent (dropWhile isDigit rest)
                     - Z.of_nat (length frac))
          end
        else
          match int with
          | [] => NaN
          | _ => toBinary64 neg (digitsValue int) (parseExponent (c :: rest))
          end
    | [] =>
        match int with
        | [] => NaN
        | _ => toBinary64 neg (digitsValue int) 0
        end
    end.

(** [parseFloat(s)] on a string: leading white space is skipped, then the
    longest prefix that is a StrDecimalLiteral is read and its value
    rounded to a Number; [NaN] when there is no such prefix.  The exact
    value of the literal is rounded, as engines do (the language lets an
    engine cut a literal of more than 20 significant digits first). *)
Definition parseFloat (s : jsstring) : jsnum :=
  let (neg, rest) := parseSign (trimStart s) in
  parseUnsigned neg rest.

(** The mathematical value of a finite number. *)
Definition numValue (n : jsnum) : option Q :=
  match n with
  | Finite neg m e =>
      let v := (inject_Z (Z.of_N m) * Qpower (2 # 1) e)%Q in
      Some (if neg then Qopp v else v)
  | _ => None
  end.

(** [n] is the number [q]. *)
Definition isNumber (q : Q) (n : jsnum) : Prop :=
  match numValue n with
  | Some v => Qeq v q
  | None => False
  end.

End Number.
Import Number.

(** ** The page: storage, effects and handlers *)

Module Page.

(** A value of a request body: a string, a number or [null]. *)
Inductive jsvalue :=
| VNull
| VStr (s : jsstring)
| VNum (n : jsnum).

(** What [JSON.stringify] writes for a value: a string, [null] and a
    finite number as they are, except that the negative zero is written
    as zero; [NaN] and the infinities as [null]. *)
Definition stringifyValue (v : jsvalue) : jsvalue :=
  match v with
  | VNum NaN => VNull
  | VNum (Infinity _) => VNull
  | VNum (Finite _ 0 e) => VNum (Finite false 0 e)
  | _ => v
  end.

(** [JSON.stringify(body)] for an object of such values: the object the
    text that is sent denotes. *)
Definition stringify (body : gmap string jsvalue) : gmap string jsvalue :=
  stringifyValue <$> body.

(** A string or [null], as a body value. *)
Definition ofNullable (v : option jsstring) : jsvalue :=
  match v with
  | Some s => VStr s
  | None => VNull
  end.

(** What a handler does to the outside, in program order. *)
Inductive effect :=
| Fetch (path : jsstring) (body : gmap string jsvalue)
| Alert (message : jsstring)
| ConsoleLog
| ConsoleWarn
| ConsoleError
| SetHref (url : jsstring)
| LocationReplace (url : jsstring)
| ShowMsg (textContent : jsstring) (color : jsstring)
| NavigateAfter (ms : N) (url : jsstring).

(** The state a handler runs in: local storage, the results container,
    the text of the progress line, and the effects performed so far. *)
Record world := {
  localStorage : gmap string jsstring;
  resultsDiv : container;
  progressDiv : jsstring;
  trace : list effect
}.

(** A completion: a value, or an exception carrying its [message]. *)
Inductive completion (A : Type) :=
| Normal (a : A)
| Throw (message : jsstring).
Arguments Normal {A} a.
Arguments Throw {A} message.

Definition M (A : Type) : Type := world -> completion A * world.

Definition ret {A} (a : A) : M A := fun w => (Normal a, w).

Definition bind {A B} (c : M A) (k : A -> M B) : M B :=
  fun w =>
    match c w with
    | (Normal a, w') => k a w'
    | (Throw m, w') => (Throw m, w')
    end.

Definition throw {A} (message : jsstring) : M A := fun w => (Throw message, w).

(** [try { body } catch (err) { handler(err.message) }]: what [body] did
    before it threw stays done. *)
Definition tryCatch {A} (body : M A) (handler : jsstring -> M A) : M A :=
  fun w =>
    match body w with
    | (Normal a, w') => (Normal a, w')
    | (Throw m, w') => handler m w'
    end.

Declare Scope js_scope.
Delimit Scope js_scope with js.
Notation "'let*' x ':=' c 'in' k" := (bind c (fun x => k))
  (at level 10, x name, c at level 100, k at level 200) : js_scope.
Local Open Scope js_scope.

(** *** Primitive operations *)

Definition getItem (key : string) : M (option jsstring) :=
  fun w => (Normal (localStorage w !! key), w).

Definition setItem (key : string) (value : jsstring) : M unit :=
  fun w => (Normal tt,
            {| localStorage := <[key := value]> (localStorage w);
               resultsDiv := resultsDiv w;
               progressDiv := progressDiv w;
               trace := trace w |}).

Definition removeItem (key : string) : M unit :=
  fun w => (Normal tt,
            {| localStorage := delete key (localStorage w);
               resultsDiv := resultsDiv w;
               progressDiv := progressDiv w;
               trace := trace w |}).

Definition emit (e : effect) : M unit :=
  fun w => (Normal tt,
            {| localStorage := localStorage w;
               resultsDiv := resultsDiv w;
               progressDiv := progressDiv w;
               trace := trace w ++ [e] |}).

Definition setProgress (text : jsstring) : M unit :=
  fun w => (Normal tt,
            {| localStorage := localStorage w;
               resultsDiv := resultsDiv w;
               progressDiv := text;
               trace := trace w |}).

Definition updateResults (f : container -> container) : M unit :=
  fun w => (Normal tt,
            {| localStorage := localStorage w;
               resultsDiv := f (resultsDiv w);
               progressDiv := progressDiv w;
               trace := trace w |}).

(** *** The network *)

(** A response: its [ok] flag, what [resp.text()] gives, and what
    [resp.json()] gives: the parsed body, or the message of the exception
    it throws. *)
Record response (A : Type) := {
  ok : bool;
  text : jsstring;
  json : completion A
}.
Arguments ok {A} r.
Arguments text {A} r.
Arguments json {A} r.

(** How a [fetch] settles: it rejects on a network failure, and resolves
    on any HTTP status.  A request that never settles leaves the handler
    suspended at its [await]; such runs are not described. *)
Inductive outcome (A : Type) :=
| Rejected (message : jsstring)
| Resolved (resp : response A).
Arguments Rejected {A} message.
Arguments Resolved {A} resp.

(** [await fetch(path, { method: "POST", ..., body: ... })], where [body]
    is the object that the JSON text sent denotes.  A handler whose object
    holds a number passes it through [stringify]; on an object of strings
    and [null] [JSON.stringify] changes no value. *)
Definition fetch {A} (path : jsstring) (body : gmap string jsvalue)
    (net : outcome A) : M (response A) :=
  let* _ := emit (Fetch path body) in
  match net with
  | Rejected m => throw m
  | Resolved resp => ret resp
  end.

(** [await resp.json()] *)
Definition readJson {A} (resp : response A) : M A :=
  match json resp with
  | Normal a => ret a
  | Throw m => throw m
  end.

Definition loginPage : jsstring := lit "/login.html".
Definition indexPage : jsstring := lit "/index.html".

(** *** The session guard (app.js, lines 13-25): the timer's callback *)

Definition sessionCheck : M unit :=
  let* username := getItem "username" in
  let* token := getItem "token" in
  let* _ := emit ConsoleLog in
  if negb (truthy_opt username) || negb (truthy_opt token) then
    let* _ := emit ConsoleWarn in
    emit (SetHref loginPage)
  else
    emit ConsoleLog.

(** *** The login flow (login.js, lines 5-36) *)

(** The success body of the login endpoint.  Its fields are strings, as
    the endpoint's interface has them; a field is [None] when the body
    does not have it. *)
Record loginBody := {
  data_token : option jsstring;
  data_username : option jsstring
}.

Definition mockToken : jsstring := lit "mock-token".

(** "请输入用户名和密码" *)
Definition msgMissing : jsstring :=
  [35831; 36755; 20837; 29992; 25143; 21517; 21644; 23494; 30721].
(** "登录成功，正在跳转..." *)
Definition msgLoggedIn : jsstring :=
  [30331; 24405; 25104; 21151; 65292; 27491; 22312; 36339; 36716; 46; 46; 46].
(** "登录失败：" *)
Definition msgLoginFailed : jsstring := [30331; 24405; 22833; 36133; 65306].

Definition loginBtn_click (usernameField passwordField : jsstring)
    (net : outcome loginBody) : M unit :=
  let username := trim usernameField in
  let password := trim passwordField in
  if negb (truthy username) || negb (truthy password) then
    emit (ShowMsg msgMissing (lit "red"))
  else
    tryCatch
      (let* resp :=
         fetch (lit "/api/login")
           (<["username" := VStr username]> (<["password" := VStr password]> ∅))
           net in
       if negb (ok resp) then throw (text resp)
       else
         let* data := readJson resp in
         let* _ := setItem "token" (or_else (data_token data) mockToken) in
         let* _ := setItem "username" (or_else (data_username data) username) in
         let* _ := emit (ShowMsg msgLoggedIn (lit "green")) in
         emit (NavigateAfter 3000 indexPage))
      (fun err => emit (ShowMsg (msgLoginFailed ++ err) (lit "red"))).

(** *** The detection flow: [predict] (app.js, lines 35-58) *)

(** The argument of [parseFloat] in [parseFloat(thresholdInput.value || 0.5)]:
    the input's value when it is not empty, else the number 0.5, which
    [parseFloat] first converts to the string "0.5". *)
Definition thresholdArg (value : jsstring) : jsstring :=
  if truthy value then value else lit "0.5".

Definition threshold (value : jsstring) : jsnum :=
  parseFloat (thresholdArg value).

(** "请输入智能合约源码！" *)
Definition msgNoSource : jsstring :=
  [35831; 36755; 20837; 26234; 33021; 21512; 32422; 28304; 30721; 65281].
(** "检测中..." *)
Definition msgDetecting : jsstring := [26816; 27979; 20013; 46; 46; 46].
(** "检测完成 ✅" *)
Definition msgDetected : jsstring := [26816; 27979; 23436; 25104; 32; 9989].
(** "检测失败: " *)
Definition msgDetectFailed : jsstring := [26816; 27979; 22833; 36133; 58; 32].

Definition predict (inputValue thresholdValue : jsstring)
    (net : outcome detection) : M unit :=
  let text_ := trim inputValue in
  if negb (truthy text_) then emit (Alert msgNoSource)
  else
    let* _ := updateResults (setInnerHTML []) in
    let* _ := setProgress msgDetecting in
    tryCatch
      (let* resp :=
         fetch (lit "/api/predict")
           (stringify
              (<["text" := VStr text_]>
                 (<["threshold" := VNum (threshold thresholdValue)]> ∅)))
           net in
       if negb (ok resp) then throw (text resp)
       else
         let* data := readJson resp in
         let* _ := updateResults (showResults data) in
         setProgress msgDetected)
      (fun err => setProgress (msgDetectFailed ++ err)).

(** *** The reload action (app.js, lines 104-123) *)

(** [const payload = {}; if (adapter) payload.adapter_path = adapter;
    if (base) payload.base_path = base;] where each of [adapter] and
    [base] is what [prompt] returned: a string, or [null] on cancel. *)
Definition assignIf (key : string) (v : option jsstring)
    (payload : gmap string jsvalue) : gmap string jsvalue :=
  match v with
  | Some s => if truthy s then <[key := VStr s]> payload else payload
  | None => payload
  end.

Definition reloadPayload (adapter base : option jsstring) : gmap string jsvalue :=
  assignIf "base_path" base (assignIf "adapter_path" adapter ∅).

(** "重新加载中..." *)
Definition msgReloading : jsstring :=
  [37325; 26032; 21152; 36733; 20013; 46; 46; 46].
(** "模型已重载成功 ✅" *)
Definition msgReloaded : jsstring :=
  [27169; 22411; 24050; 37325; 36733; 25104; 21151; 32; 9989].
(** "模型已切换" *)
Definition msgSwitched : jsstring := [27169; 22411; 24050; 20999; 25442].
(** "切换失败: " *)
Definition msgSwitchFailed : jsstring := [20999; 25442; 22833; 36133; 58; 32].

Definition reloadBtn_click (adapter base : option jsstring)
    (net : outcome unit) : M unit :=
  let payload := reloadPayload adapter base in
  let* _ := setProgress msgReloading in
  tryCatch
    (let* resp := fetch (lit "/api/reload") payload net in
     if negb (ok resp) then throw (text resp)
     else
       let* _ := emit (Alert msgReloaded) in
       setProgress msgSwitched)
    (fun err => setProgress (msgSwitchFailed ++ err)).

(** *** Logout (app.js, lines 157-179) *)

Definition logoutBtn_click (net : outcome unit) : M unit :=
  let* username := getItem "username" in
  let* token := getItem "token" in
  let* _ :=
    tryCatch
      (let* _ :=
         fetch (lit "/api/logout")
           (<["username" := ofNullable username]>
              (<["token" := ofNullable token]> ∅))
           net in
       ret tt)
      (fun err => emit ConsoleWarn) in
  let* _ := removeItem "username" in
  let* _ := removeItem "token" in
  let* _ := removeItem "theme" in
  emit (LocationReplace loginPage).

(** *** Change password (app.js, lines 189-223) *)

(** The body of the change-password endpoint: [error] on failure,
    [message] on success, both strings, either possibly missing. *)
Record pwdBody := {
  data_error : option jsstring;
  data_message : option jsstring
}.

(** "请先登录！" *)
Definition msgLoginFirst : jsstring := [35831; 20808; 30331; 24405; 65281].
(** "修改失败" *)
Definition msgChangeFailed : jsstring := [20462; 25913; 22833; 36133].
(** "密码修改成功，请重新登录" *)
Definition msgChanged : jsstring :=
  [23494; 30721; 20462; 25913; 25104; 21151; 65292; 35831; 37325; 26032;
   30331; 24405].
(** "❌ 修改失败：" *)
Definition failurePrefix : jsstring :=
  [10060; 32; 20462; 25913; 22833; 36133; 65306].

(** [oldAnswer] and [newAnswer] are what the two prompts return; the
    second prompt is only shown when the first answer is not empty. *)
Definition changePwdBtn_click (oldAnswer newAnswer : option jsstring)
    (net : outcome pwdBody) : M unit :=
  let* username := getItem "username" in
  let* token := getItem "token" in
  if negb (truthy_opt username) then
    let* _ := emit (Alert msgLoginFirst) in
    emit (SetHref loginPage)
  else if negb (truthy_opt oldAnswer) then ret tt
  else if negb (truthy_opt newAnswer) then ret tt
  else
    tryCatch
      (let* resp :=
         fetch (lit "/api/change_password")
           (<["username" := ofNullable username]>
              (<["old_password" := ofNullable oldAnswer]>
                 (<["new_password" := ofNullable newAnswer]>
                    (<["token" := ofNullable token]> ∅))))
           net in
       let* data := readJson resp in
       if negb (ok resp) then throw (or_else (data_error data) msgChangeFailed)
       else
         let* _ := emit (Alert (or_else (data_message data) msgChanged)) in
         let* _ := removeItem "username" in
         let* _ := removeItem "token" in
         let* _ := removeItem "theme" in
         emit (LocationReplace loginPage))
      (fun err => emit (Alert (failurePrefix ++ err))).

(** *** The theme manager (app.js, lines 126-152) *)

(** What [applyTheme] writes to the document: the [data-theme] attribute
    of the root element and the text of the toggle control. *)
Record themeView := { dataTheme : jsstring; toggleText : jsstring }.

Definition darkTheme : jsstring := lit "dark".
Definition lightTheme : jsstring := lit "light".

(** "🌞 切换主题" *)
Definition sunLabel : jsstring := [55356; 57118; 32; 20999; 25442; 20027; 39064].
(** "🌙 切换主题" *)
Definition moonLabel : jsstring := [55356; 57113; 32; 20999; 25442; 20027; 39064].

(** [applyTheme(theme)].  The request to the theme endpoint is not
    awaited; its rejection is handled by the [catch] attached to it, which
    logs.  The request is the last thing [applyTheme] and its callers do,
    so that log entry follows everything else of the run. *)
Definition applyTheme (theme : jsstring) (net : outcome unit) : M themeView :=
  let view := {| dataTheme := theme;
                 toggleText := if bool_decide (theme = darkTheme)
                               then sunLabel else moonLabel |} in
  let* _ := setItem "theme" theme in
  let* username := getItem "username" in
  let* token := getItem "token" in
  let* _ :=
    if truthy_opt username then
      tryCatch
        (let* _ :=
           fetch (lit "/api/theme")
             (<["username" := ofNullable username]>
                (<["theme" := VStr theme]>
                   (<["token" := ofNullable token]> ∅)))
             net in
         ret tt)
        (fun err => emit ConsoleError)
    else ret tt in
  ret view.

(** The click handler of the toggle. *)
Definition themeToggle_click (net : outcome unit) : M themeView :=
  let* stored := getItem "theme" in
  let cur := or_else stored lightTheme in
  applyTheme (if bool_decide (cur = darkTheme) then lightTheme else darkTheme) net.

(** [initTheme], run once when the page loads. *)
Definition initTheme (net : outcome unit) : M themeView :=
  let* stored := getItem "theme" in
  let t := or_else stored lightTheme in
  applyTheme t net.

(** *** Observations on a run *)

Definition alerts (t : list effect) : list jsstring :=
  flat_map (fun e => match e with Alert m => [m] | _ => [] end) t.

Definition requests (t : list effect) : list (jsstring * gmap string jsvalue) :=
  flat_map (fun e => match e with Fetch p b => [(p, b)] | _ => [] end) t.

Definition navigations (t : list effect) : list jsstring :=
  flat_map (fun e => match e with
                     | SetHref u | LocationReplace u => [u]
                     | _ => []
                     end) t.

(** A page as it is when a handler starts: nothing done yet. *)
Definition start (storage : gmap string jsstring) : world :=
  {| localStorage := storage;
     resultsDiv := {| markup := []; appended := [] |};
     progressDiv := [];
     trace := [] |}.

End Page.
Import Page.

(** * Vocabulary of the properties *)

(** What [escapeHtml] does to one character. *)
Definition escapeChar (c : N) : jsstring :=
  if c =? ch_amp then lit "&amp;"
  else if c =? ch_lt then lit "&lt;"
  else if c =? ch_gt then lit "&gt;"
  else if c =? ch_quot then lit "&quot;"
  else if c =? ch_apos then lit "&#039;"
  else [c].

(** The five entities [escapeHtml] writes. *)
Definition entities : list jsstring :=
  [lit "&amp;"; lit "&lt;"; lit "&gt;"; lit "&quot;"; lit "&#039;"].

(** The characters that must not reach the page raw. *)
Definition isMarkupChar (c : N) : bool :=
  (c =? ch_lt) || (c =? ch_gt) || (c =? ch_quot) || (c =? ch_apos).

(** No raw [<], [>], double or single quote, and every [&] starts one of
    the five entities. *)
Fixpoint wellEscaped (s : jsstring) : bool :=
  match s with
  | [] => true
  | c :: rest =>
      negb (isMarkupChar c)
      && (if c =? ch_amp then existsb (fun e => startsWith e s) entities
          else true)
      && wellEscaped rest
  end.

(** The labels of a response: its [labels], or none when it has no such
    key. *)
Definition labelsOf (data : detection) : list jsstring :=
  match labels data with
  | Some l => l
  | None => []
  end.

(** Any character but the colon. *)
Definition notColon (c : N) : bool := negb (c =? ch_colon).

(** The title and the description as the specification words them: the
    trimmed text before the first colon (the whole label when it has no
    colon) and the trimmed text after the first colon. *)
Definition beforeFirstColon (label : jsstring) : jsstring :=
  takeWhile notColon label.

Definition afterFirstColon (label : jsstring) : jsstring :=
  match dropWhile notColon label with
  | [] => []
  | _ :: rest => rest
  end.

Definition specTitle (label : jsstring) : jsstring := trim (beforeFirstColon label).
Definition specDesc (label : jsstring) : jsstring := trim (afterFirstColon label).


(** The field a prompt's answer gives rise to: none when the prompt was
    cancelled ([None]) or left empty. *)
Definition entered (answer : option jsstring) : option jsvalue :=
  match answer with
  | Some s => if truthy s then Some (VStr s) else None
  | None => None
  end.

(** The number 0.5: [2^52 * 2^(-53)]. *)
Definition half : jsnum := Finite false 4503599627370496 (-53).

(** The body of the predict request, as sent. *)
Definition predictBody (inputValue thresholdValue : jsstring) : gmap string jsvalue :=
  stringify
    (<["text" := VStr (trim inputValue)]>
       (<["threshold" := VNum (threshold thresholdValue)]> ∅)).

(** A stored value the guard accepts: present and not empty. *)
Definition usable (v : option jsstring) : Prop :=
  exists s, v = Some s /\ s <> [].

(** The body of the change-password request. *)
Definition changePwdBody (storage : gmap string jsstring)
    (oldAnswer newAnswer : option jsstring) : gmap string jsvalue :=
  <["username" := ofNullable (storage !! "username")]>
    (<["old_password" := ofNullable oldAnswer]>
       (<["new_password" := ofNullable newAnswer]>
          (<["token" := ofNullable (storage !! "token")]> ∅))).

(** One of the five characters [escapeHtml] rewrites. *)
Definition isEscapedChar (c : N) : bool := (c =? ch_amp) || isMarkupChar c.

(** The parts of a split put back together: pieces and captures
    alternate, and each capture was preceded by the colon that the
    pattern consumed. *)
Fixpoint joinParts (parts : list jsstring) : jsstring :=
  match parts with
  | [] => []
  | [piece] => piece
  | piece :: capture :: rest => piece ++ ch_colon :: capture ++ joinParts rest
  end.

(** The results container right after [innerHTML] was emptied. *)
Definition cleared : container := {| markup := []; appended := [] |}.

(** What a handler that checks [resp.ok] and then reads [resp.json()]
    gets from its request: the parsed body, or the message of the
    exception it ends up with (the rejection's, the response text of a
    non-success status, or the parser's). *)
Definition bodyOf {A} (net : outcome A) : completion A :=
  match net with
  | Rejected m => Throw m
  | Resolved resp => if ok resp then json resp else Throw (text resp)
  end.

(** The body of the login request. *)
Definition loginRequest (usernameField passwordField : jsstring) : gmap string jsvalue :=
  <["username" := VStr (trim usernameField)]>
    (<["password" := VStr (trim passwordField)]> ∅).

(** The theme the toggle switches to, given what is stored. *)
Definition nextTheme (stored : option jsstring) : jsstring :=
  if bool_decide (stored = Some darkTheme) then lightTheme else darkTheme.

(** The theme the page starts with, given what is stored. *)
Definition initialTheme (stored : option jsstring) : jsstring :=
  match stored with
  | Some [] => lightTheme
  | Some t => t
  | None => lightTheme
  end.

(** The text of the toggle for a theme. *)
Definition labelFor (theme : jsstring) : jsstring :=
  if bool_decide (theme = darkTheme) then sunLabel else moonLabel.

(** The body of the theme synchronisation request. *)
Definition themeBody (storage : gmap string jsstring) (theme : jsstring) : gmap string jsvalue :=
  <["username" := ofNullable (storage !! "username")]>
    (<["theme" := VStr theme]>
       (<["token" := ofNullable (storage !! "token")]> ∅)).

(** What a run of the theme manager leaves on the trace after the
    effects [t] that were there: the synchronisation request when a
    user name is stored, and the log entry of its rejection. *)
Definition themeSync (storage : gmap string jsstring) (theme : jsstring)
    (net : outcome unit) : list effect :=
  if truthy_opt (storage !! "username") then
    Fetch (lit "/api/theme") (themeBody storage theme)
    :: match net with
       | Rejected _ => [ConsoleError]
       | Resolved _ => []
       end
  else [].

(** * Properties *)

(** ** Escaping *)

Lemma replaceAll_flat_map c r s :
  replaceAll c r s = flat_map (fun x => if x =? c then r else [x]) s.
Proof. induction s as [|x s IH]; simpl; [reflexivity | now rewrite IH]. Qed.

Lemma replaceAll_app c r s t :
  replaceAll c r (s ++ t) = replaceAll c r s ++ replaceAll c r t.
Proof.
  induction s as [|x s IH]; simpl; [reflexivity |].
  now rewrite IH, app_assoc.
Qed.

Lemma escapeHtml_app s t : escapeHtml (s ++ t) = escapeHtml s ++ escapeHtml t.
Proof. unfold escapeHtml. now rewrite !replaceAll_app. Qed.

(** Case analysis of a character against the five that are escaped. *)
Ltac five_chars c :=
  unfold ch_amp, ch_lt, ch_gt, ch_quot, ch_apos in *;
  repeat match goal with
         | |- context [N.eqb c ?k] => destruct (N.eqb_spec c k) as [->|?]
         end.

Lemma escapeHtml_one c : escapeHtml [c] = escapeChar c.
Proof.
  unfold escapeHtml, escapeChar, ch_amp, ch_lt, ch_gt, ch_quot, ch_apos.
  simpl replaceAll at 5.
  destruct (N.eqb_spec c 38) as [->|Hamp]; [reflexivity |].
  simpl replaceAll at 4.
  destruct (N.eqb_spec c 60) as [->|Hlt]; [reflexivity |].
  simpl replaceAll at 3.
  destruct (N.eqb_spec c 62) as [->|Hgt]; [reflexivity |].
  simpl replaceAll at 2.
  destruct (N.eqb_spec c 34) as [->|Hquot]; [reflexivity |].
  simpl.
  destruct (N.eqb_spec c 39) as [->|Hapos]; reflexivity.
Qed.

Lemma escapeHtml_flat_map s : escapeHtml s = flat_map escapeChar s.
Proof.
  induction s as [|c s IH]; [reflexivity |].
  change (c :: s) with ([c] ++ s).
  rewrite escapeHtml_app, escapeHtml_one, IH. reflexivity.
Qed.

Lemma wellEscaped_escapeChar c t :
  wellEscaped t = true -> wellEscaped (escapeChar c ++ t) = true.
Proof.
  intros Ht. unfold escapeChar. five_chars c; try (simpl; exact Ht).
  simpl. unfold isMarkupChar. rewrite Ht.
  five_chars c; try contradiction. reflexivity.
Qed.

Lemma wellEscaped_escapeHtml s : wellEscaped (escapeHtml s) = true.
Proof.
  rewrite escapeHtml_flat_map.
  induction s as [|c s IH]; [reflexivity |].
  simpl. now apply wellEscaped_escapeChar.
Qed.

Lemma wellEscaped_no_markup s c :
  wellEscaped s = true -> isMarkupChar c = true -> count_occ N.eq_dec s c = 0%nat.
Proof.
  intros Hs Hc. induction s as [|x s IH]; [reflexivity |].
  simpl in Hs. apply andb_prop in Hs as [Hx Hs]. apply andb_prop in Hx as [Hx _].
  simpl. destruct (N.eq_dec x c) as [->|_].
  - rewrite Hc in Hx. discriminate.
  - now apply IH.
Qed.

Lemma truthy_escapeHtml s : truthy (escapeHtml s) = truthy s.
Proof.
  destruct s as [|c s]; [reflexivity |].
  rewrite escapeHtml_flat_map. simpl.
  unfold escapeChar. five_chars c; reflexivity.
Qed.

(** ** The results container *)

Lemma fold_appendChild ls d :
  fold_left (fun d label => appendChild (card label) d) ls d
  = {| markup := markup d; appended := appended d ++ map card ls |}.
Proof.
  revert d. induction ls as [|l ls IH]; intros d; simpl.
  - rewrite app_nil_r. now destruct d.
  - rewrite IH. simpl. now rewrite <- app_assoc.
Qed.

Lemma showResults_appended data d :
  appended (showResults data d) = map card (labelsOf data).
Proof.
  unfold showResults, labelsOf.
  destruct (labels data) as [[|l ls]|]; simpl; try reflexivity.
  rewrite fold_appendChild. reflexivity.
Qed.

Lemma count_occ_template c t d :
  count_occ N.eq_dec t c = 0%nat ->
  count_occ N.eq_dec d c = 0%nat ->
  count_occ N.eq_dec (cardTemplate t d) c
  = (count_occ N.eq_dec (title_open ++ title_close ++ indent 4) c
     + if truthy d then count_occ N.eq_dec (desc_open ++ desc_close) c else 0)%nat.
Proof.
  intros Ht Hd. unfold cardTemplate, descBlock.
  destruct (truthy d); rewrite ?count_occ_app, ?Ht, ?Hd;
    change (count_occ N.eq_dec [] c) with 0%nat; lia.
Qed.

(** C1.  Every card that [showResults] appends is the card of a label of
    the response, in order; the markup of a label's card is the fixed
    template around [escapeHtml] of the title and of the description;
    [escapeHtml] replaces each of the five characters (ampersand, [<],
    [>], double quote, single quote) by its
    entity and leaves every other character alone; the escaped title and
    description hold no raw [<], [>], double or single quote, and each [&]
    in them starts an entity; so the only angle brackets of the card's
    markup are the template's own: four of each kind, or six when there is
    a description.  This holds for every label, in particular for those
    that contain a script tag. *)
Theorem showResults_escapes_labels (data : detection) (d : container) (label : jsstring) :
  appended (showResults data d) = map card (labelsOf data)
  /\ innerHTML (card label)
     = cardTemplate (escapeHtml (title label)) (escapeHtml (desc label))
  /\ escapeHtml (title label) = flat_map escapeChar (title label)
  /\ escapeHtml (desc label) = flat_map escapeChar (desc label)
  /\ wellEscaped (escapeHtml (title label)) = true
  /\ wellEscaped (escapeHtml (desc label)) = true
  /\ count_occ N.eq_dec (innerHTML (card label)) ch_lt
     = (if truthy (desc label) then 6 else 4)%nat
  /\ count_occ N.eq_dec (innerHTML (card label)) ch_gt
     = (if truthy (desc label) then 6 else 4)%nat.
Proof.
  split; [apply showResults_appended |].
  split; [reflexivity |].
  split; [apply escapeHtml_flat_map |].
  split; [apply escapeHtml_flat_map |].
  split; [apply wellEscaped_escapeHtml |].
  split; [apply wellEscaped_escapeHtml |].
  assert (Hcount : forall c, isMarkupChar c = true ->
            count_occ N.eq_dec (innerHTML (card label)) c
            = (count_occ N.eq_dec (title_open ++ title_close ++ indent 4) c
               + if truthy (desc label)
                 then count_occ N.eq_dec (desc_open ++ desc_close) c else 0)%nat).
  { intros c Hc. simpl innerHTML. unfold cardHtml.
    rewrite count_occ_template, truthy_escapeHtml; [reflexivity | |];
      apply wellEscaped_no_markup; auto using wellEscaped_escapeHtml. }
  split; rewrite Hcount by reflexivity; destruct (truthy (desc label)); reflexivity.
Qed.

Example script_label_card :
  title (lit "<script>alert(1)</script>: x<y") = lit "<script>alert(1)</script>"
  /\ escapeHtml (lit "<script>alert(1)</script>")
     = lit "&lt;script&gt;alert(1)&lt;/script&gt;"
  /\ escapeHtml (desc (lit "<script>alert(1)</script>: x<y")) = lit "x&lt;y".
Proof. repeat split; vm_compute; reflexivity. Qed.

(** ** Splitting a label *)

Lemma takeWhile_all p s : forallb p s = true -> takeWhile p s = s.
Proof.
  induction s as [|c s IH]; simpl; [reflexivity |].
  intros H. apply andb_prop in H as [-> H]. now rewrite IH.
Qed.

Lemma dropWhile_all p s : forallb p s = true -> dropWhile p s = [].
Proof.
  induction s as [|c s IH]; simpl; [reflexivity |].
  intros H. apply andb_prop in H as [-> H]. now apply IH.
Qed.

Lemma takeWhile_stop p s c t :
  forallb p s = true -> p c = false -> takeWhile p (s ++ c :: t) = s.
Proof.
  induction s as [|x s IH]; simpl; intros H Hc.
  - now rewrite Hc.
  - apply andb_prop in H as [-> H]. now rewrite IH.
Qed.

Lemma dropWhile_stop p s c t :
  forallb p s = true -> p c = false -> dropWhile p (s ++ c :: t) = c :: t.
Proof.
  induction s as [|x s IH]; simpl; intros H Hc.
  - now rewrite Hc.
  - apply andb_prop in H as [-> H]. now apply IH.
Qed.

Lemma dropWhile_length p s : (length (dropWhile p s) <= length s)%nat.
Proof.
  induction s as [|c s IH]; simpl; [lia |].
  destruct (p c); simpl; lia.
Qed.

Lemma execSep_shorter s capture after :
  execSep s = Some (capture, after) -> (length after < length s)%nat.
Proof.
  destruct s as [|c rest]; simpl; [discriminate |].
  destruct (c =? ch_colon); [| discriminate].
  destruct (takeWhile notLineTerminator rest); [discriminate |].
  intros [= _ <-]. pose proof (dropWhile_length notLineTerminator rest). lia.
Qed.

(** The fuel [split] gives the loop is enough: more changes nothing. *)
Lemma splitLoop_fuel f1 f2 piece rest :
  (length rest < f1)%nat -> (length rest < f2)%nat ->
  splitLoop f1 piece rest = splitLoop f2 piece rest.
Proof.
  revert f2 piece rest.
  induction f1 as [|f1 IH]; intros f2 piece rest H1 H2; [lia |].
  destruct f2 as [|f2]; [lia |].
  destruct rest as [|c rest']; [reflexivity |].
  cbn [splitLoop].
  destruct (execSep (c :: rest')) as [[capture after]|] eqn:E.
  - apply execSep_shorter in E. simpl in *.
    f_equal. f_equal. apply IH; lia.
  - simpl in *. apply IH; lia.
Qed.

(** With that fuel the loop always pushes a last piece: the result is
    never the empty array of an exhausted loop. *)
Lemma splitLoop_nonempty fuel piece rest :
  (length rest < fuel)%nat -> splitLoop fuel piece rest <> [].
Proof.
  revert piece rest.
  induction fuel as [|fuel IH]; intros piece rest H; [lia |].
  destruct rest as [|c rest']; [discriminate |].
  cbn [splitLoop].
  destruct (execSep (c :: rest')) as [[capture after]|]; [discriminate |].
  apply IH. simpl in H. lia.
Qed.

Lemma execSep_notColon c rest : notColon c = true -> execSep (c :: rest) = None.
Proof.
  unfold notColon. simpl. now destruct (c =? ch_colon).
Qed.

Lemma splitLoop_scan a fuel piece rest :
  forallb notColon a = true ->
  splitLoop (length a + fuel) piece (a ++ rest) = splitLoop fuel (piece ++ a) rest.
Proof.
  revert piece.
  induction a as [|c a IH]; intros piece H; simpl.
  - now rewrite app_nil_r.
  - apply andb_prop in H as [Hc H].
    pose proof (execSep_notColon c (a ++ rest) Hc) as E. simpl in E. rewrite E.
    rewrite IH by exact H. now rewrite <- app_assoc.
Qed.

Lemma split_no_colon s : forallb notColon s = true -> split s = [s].
Proof.
  intros H. unfold split.
  replace (S (length s)) with (length s + 1)%nat by lia.
  rewrite <- (app_nil_r s) at 2.
  rewrite splitLoop_scan by exact H. reflexivity.
Qed.

Lemma split_first_colon a b :
  forallb notColon a = true ->
  takeWhile notLineTerminator b <> [] ->
  exists tail, split (a ++ ch_colon :: b) = a :: takeWhile notLineTerminator b :: tail.
Proof.
  intros Ha Hb. unfold split.
  replace (S (length (a ++ ch_colon :: b)))
    with (length a + S (S (length b)))%nat
    by (rewrite length_app; simpl; lia).
  rewrite splitLoop_scan by exact Ha.
  cbn [splitLoop app]. unfold execSep.
  rewrite N.eqb_refl.
  destruct (takeWhile notLineTerminator b) as [|x cap] eqn:E; [contradiction |].
  eexists. reflexivity.
Qed.

Lemma beforeFirstColon_app a b :
  forallb notColon a = true -> beforeFirstColon (a ++ ch_colon :: b) = a.
Proof. intros H. now apply takeWhile_stop. Qed.

Lemma afterFirstColon_app a b :
  forallb notColon a = true -> afterFirstColon (a ++ ch_colon :: b) = b.
Proof.
  intros H. unfold afterFirstColon. now rewrite dropWhile_stop.
Qed.

Lemma trimmedPart_trim p parts : trimmedPart (p :: parts) 0 = trim p.
Proof. unfold trimmedPart. simpl. now destruct p. Qed.

(** A label with no colon: the title is the whole trimmed label, and no
    description block is rendered. *)
Lemma title_no_colon label :
  forallb notColon label = true ->
  title label = trim label /\ desc label = []
  /\ descBlock (escapeHtml (desc label)) = [].
Proof.
  intros H. unfold title, desc. rewrite split_no_colon by exact H.
  rewrite trimmedPart_trim. repeat split; reflexivity.
Qed.

(** A label whose first colon is followed by a character that is not a
    line terminator: the title is the trimmed text before that colon and
    the description the trimmed rest of that line. *)
Lemma title_desc_first_colon a b :
  forallb notColon a = true ->
  takeWhile notLineTerminator b <> [] ->
  title (a ++ ch_colon :: b) = trim a
  /\ desc (a ++ ch_colon :: b) = trim (takeWhile notLineTerminator b).
Proof.
  intros Ha Hb. destruct (split_first_colon a b Ha Hb) as [tail E].
  unfold title, desc. rewrite E, trimmedPart_trim. split; [reflexivity |].
  unfold trimmedPart. simpl.
  destruct (takeWhile notLineTerminator b); [contradiction | reflexivity].
Qed.

(** On a one-line label with something after its first colon the code
    and the specification's wording agree. *)
Lemma title_desc_single_line a b :
  forallb notColon a = true ->
  b <> [] ->
  forallb notLineTerminator b = true ->
  title (a ++ ch_colon :: b) = specTitle (a ++ ch_colon :: b)
  /\ desc (a ++ ch_colon :: b) = specDesc (a ++ ch_colon :: b).
Proof.
  intros Ha Hb Hline.
  assert (E : takeWhile notLineTerminator b = b) by now apply takeWhile_all.
  destruct (title_desc_first_colon a b Ha) as [Ht Hd]; [now rewrite E |].
  unfold specTitle, specDesc.
  rewrite beforeFirstColon_app, afterFirstColon_app by exact Ha.
  now rewrite Ht, Hd, E.
Qed.

Example split_A_B_C :
  split (lit "A: B: C") = [lit "A"; lit " B: C"; []]
  /\ title (lit "A: B: C") = lit "A"
  /\ desc (lit "A: B: C") = lit "B: C".
Proof. repeat split; vm_compute; reflexivity. Qed.

(** C2.  The code and the specification part ways where the first colon
    is not followed by text on the same line.  In a label of two lines the
    description stops at the line break and what follows is dropped; a
    colon that ends the label, or ends its line, does not split: it stays
    in the title, and a later colon splits instead. *)
Theorem split_differs_from_first_colon_rule :
  split (lit "A: B" ++ [ch_nl] ++ lit "C")
  = [lit "A"; lit " B"; [ch_nl] ++ lit "C"]
  /\ desc (lit "A: B" ++ [ch_nl] ++ lit "C") = lit "B"
  /\ specDesc (lit "A: B" ++ [ch_nl] ++ lit "C") = lit "B" ++ [ch_nl] ++ lit "C"
  /\ title (lit "A:") = lit "A:"
  /\ specTitle (lit "A:") = lit "A"
  /\ title (lit "A:" ++ [ch_nl] ++ lit "B: C") = lit "A:" ++ [ch_nl] ++ lit "B"
  /\ desc (lit "A:" ++ [ch_nl] ++ lit "B: C") = lit "C"
  /\ specTitle (lit "A:" ++ [ch_nl] ++ lit "B: C") = lit "A"
  /\ specDesc (lit "A:" ++ [ch_nl] ++ lit "B: C") = lit "B: C".
Proof. repeat split; vm_compute; reflexivity. Qed.

(** ** Account actions *)

Lemma alerts_app t1 t2 : alerts (t1 ++ t2) = alerts t1 ++ alerts t2.
Proof. apply flat_map_app. Qed.

Lemma requests_app t1 t2 : requests (t1 ++ t2) = requests t1 ++ requests t2.
Proof. apply flat_map_app. Qed.

Lemma navigations_app t1 t2 :
  navigations (t1 ++ t2) = navigations t1 ++ navigations t2.
Proof. apply flat_map_app. Qed.


(** ** The reload action *)

Lemma assignIf_lookup key v payload k :
  assignIf key v payload !! k
  = if decide (key = k) then
      match entered v with
      | Some x => Some x
      | None => payload !! k
      end
    else payload !! k.
Proof.
  unfold assignIf, entered.
  destruct v as [s|]; [destruct (truthy s) |]; case_decide; subst;
    by simplify_map_eq.
Qed.

(** C8.  The handler sends one request, to the reload endpoint, and its
    body is the payload it assembled.  In the payload the key
    [adapter_path] is present exactly when the first prompt was answered
    with a string that is not empty, and then holds that string; likewise
    [base_path] and the second prompt; no other key is present.  A
    cancelled or empty answer leaves the key absent. *)
Theorem reload_body_omits_missing_paths
    (adapter base : option jsstring) (net : outcome unit) (w : world) (k : string) :
  requests (trace (snd (reloadBtn_click adapter base net w)))
  = requests (trace w) ++ [(lit "/api/reload", reloadPayload adapter base)]
  /\ reloadPayload adapter base !! "adapter_path" = entered adapter
  /\ reloadPayload adapter base !! "base_path" = entered base
  /\ reloadPayload adapter base !! k
     = if decide (k = "adapter_path") then entered adapter
       else if decide (k = "base_path") then entered base
       else None.
Proof.
  assert (H : forall k', reloadPayload adapter base !! k'
     = if decide (k' = "adapter_path") then entered adapter
       else if decide (k' = "base_path") then entered base
       else None).
  { intros k'. unfold reloadPayload. rewrite !assignIf_lookup.
    repeat case_decide; subst; try done;
      rewrite ?lookup_empty; by destruct (entered _). }
  split.
  - destruct net as [m|[[] t j]]; cbn; rewrite ?requests_app; cbn;
      now rewrite ?app_nil_r.
  - split; [apply (H "adapter_path") |]. split; [apply (H "base_path") | apply H].
Qed.

Example reload_adapter_only :
  reloadPayload (Some (lit "/models/adapter")) None
  = {[ "adapter_path" := VStr (lit "/models/adapter") ]}
  /\ reloadPayload (Some (lit "/models/adapter")) None !! "base_path" = None
  /\ reloadPayload (Some (lit "/models/adapter")) (Some []) !! "base_path" = None.
Proof. repeat split; vm_compute; reflexivity. Qed.

(** ** The empty result *)

(** C9.  For a response whose [labels] is the empty array, whatever the
    container held before, [showResults] leaves in it the no-findings
    notice and nothing else: one notice, no card. *)
Theorem showResults_empty_labels (d : container) :
  showResults {| labels := Some [] |} d
  = {| markup := noFindingsHtml; appended := [] |}
  /\ notices (showResults {| labels := Some [] |} d) = 1%nat
  /\ cards (showResults {| labels := Some [] |} d) = [].
Proof. repeat split; vm_compute; reflexivity. Qed.

(** C10.  For a response with no [labels] key, [showResults] does what it
    does for the empty array: the destructuring default supplies the
    empty array, and the container ends with the one notice and no card.
    A detection whose success body has no [labels] key therefore ends
    with that notice in the page and the completion message on the
    progress line, not the failure message. *)
Theorem showResults_missing_labels
    (d : container) (inputValue thresholdValue responseText : jsstring) (w : world) :
  showResults {| labels := None |} d = showResults {| labels := Some [] |} d
  /\ showResults {| labels := None |} d
     = {| markup := noFindingsHtml; appended := [] |}
  /\ notices (showResults {| labels := None |} d) = 1%nat
  /\ cards (showResults {| labels := None |} d) = []
  /\ resultsDiv
       (snd (predict inputValue thresholdValue
               (Resolved {| ok := true; text := responseText;
                            json := Normal {| labels := None |} |}) w))
     = (if truthy (trim inputValue)
        then {| markup := noFindingsHtml; appended := [] |}
        else resultsDiv w)
  /\ progressDiv
       (snd (predict inputValue thresholdValue
               (Resolved {| ok := true; text := responseText;
                            json := Normal {| labels := None |} |}) w))
     = (if truthy (trim inputValue) then msgDetected else progressDiv w).
Proof.
  split; [reflexivity |]. split; [reflexivity |].
  split; [reflexivity |]. split; [reflexivity |].
  unfold predict. destruct (truthy (trim inputValue)); split; reflexivity.
Qed.

(** ** The threshold of a detection request *)

Lemma predict_requests inputValue thresholdValue net w :
  requests (trace (snd (predict inputValue thresholdValue net w)))
  = requests (trace w)
    ++ if truthy (trim inputValue)
       then [(lit "/api/predict", predictBody inputValue thresholdValue)]
       else [].
Proof.
  unfold predict.
  destruct (truthy (trim inputValue)); cbn.
  - destruct net as [m|[[] t [data|m]]]; cbn; rewrite ?requests_app; cbn;
      now rewrite ?app_nil_r.
  - rewrite requests_app. reflexivity.
Qed.

Lemma predictBody_sent inputValue thresholdValue :
  predictBody inputValue thresholdValue
  = <["text" := VStr (trim inputValue)]>
      (<["threshold" := stringifyValue (VNum (threshold thresholdValue))]> ∅).
Proof.
  unfold predictBody, stringify.
  rewrite !fmap_insert, fmap_empty. reflexivity.
Qed.

(** On an object of strings and [null], [JSON.stringify] changes no
    value. *)
Lemma stringify_strings (body : gmap string jsvalue) :
  (forall k n, body !! k <> Some (VNum n)) -> stringify body = body.
Proof.
  intros H. apply map_eq. intros k. unfold stringify. rewrite lookup_fmap.
  specialize (H k). destruct (body !! k) as [[| |n]|]; try reflexivity.
  now destruct (H n).
Qed.

Example parseFloat_rounds :
  parseFloat (lit "0.5") = half
  /\ parseFloat (lit "1e400") = Infinity false
  /\ parseFloat (lit "0.1000000000000000000000001") = parseFloat (lit "0.1")
  /\ parseFloat (lit "9007199254740993") = Finite false 4503599627370496 1
  /\ parseFloat (lit "5e-324") = Finite false 1 (-1074)
  /\ parseFloat (lit "-0") = Finite true 0 (-1074).
Proof. repeat split; vm_compute; reflexivity. Qed.

(** C3, as the code has it.  When the source text is not empty the
    handler sends one predict request.  Its [threshold] is 0.5 when the
    threshold input is empty.  When that input is not empty, nothing is
    substituted for it: the threshold is [parseFloat] of the input as
    [JSON.stringify] writes it, that is the number itself when it is
    finite, and [null] when it is [NaN] (no number could be read) or
    infinite. *)
Theorem threshold_defaults_when_empty
    (inputValue thresholdValue : jsstring) (net : outcome detection) (w : world) :
  requests (trace (snd (predict inputValue thresholdValue net w)))
  = requests (trace w)
    ++ (if truthy (trim inputValue)
        then [(lit "/api/predict", predictBody inputValue thresholdValue)]
        else [])
  /\ predictBody inputValue thresholdValue !! "threshold"
     = Some (match threshold thresholdValue with
             | NaN => VNull
             | Infinity _ => VNull
             | Finite _ 0 e => VNum (Finite false 0 e)
             | Finite neg m e => VNum (Finite neg m e)
             end)
  /\ threshold thresholdValue
     = (if truthy thresholdValue then parseFloat thresholdValue else half)
  /\ predictBody inputValue [] !! "threshold" = Some (VNum half)
  /\ isNumber (1 # 2) half.
Proof.
  split; [apply predict_requests |].
  split.
  { rewrite predictBody_sent, lookup_insert_ne, lookup_insert_eq by done.
    destruct (threshold thresholdValue) as [|neg|neg [|m] e]; reflexivity. }
  split.
  { unfold threshold, thresholdArg.
    destruct (truthy thresholdValue); [reflexivity | vm_compute; reflexivity]. }
  split.
  { rewrite predictBody_sent, lookup_insert_ne, lookup_insert_eq by done.
    vm_compute. reflexivity. }
  reflexivity.
Qed.

(** C3, as stated, fails: the input [abc] cannot be parsed as a number,
    and the threshold that is sent for it is [null], not 0.5. *)
Lemma threshold_unparsable_sent_as_null :
  parseFloat (lit "abc") = NaN
  /\ requests (trace (snd (predict (lit "contract C {}") (lit "abc")
                             (Rejected []) (start ∅))))
     = [(lit "/api/predict",
         <["text" := VStr (lit "contract C {}")]>
           (<["threshold" := VNull]> ∅))]
  /\ VNull <> VNum half.
Proof.
  split; [reflexivity |]. split; [vm_compute; reflexivity | discriminate].
Qed.

(** ** The session guard *)

Lemma truthy_opt_usable v : truthy_opt v = true <-> usable v.
Proof.
  unfold usable. destruct v as [[|c s]|]; simpl; split;
    try discriminate; try (intros (s' & [= <-] & H); congruence);
    try (intros (s' & [=] & _)).
  intros _. eexists. split; [reflexivity | discriminate].
Qed.

(** C4, as the code has it.  The check changes nothing in local storage
    and redirects to the login page exactly when the stored [username] or
    the stored [token] is absent or empty; when both are present and not
    empty it only logs. *)
Theorem sessionCheck_redirects_unless_both_usable (w : world) :
  localStorage (snd (sessionCheck w)) = localStorage w
  /\ navigations (trace (snd (sessionCheck w)))
     = navigations (trace w)
       ++ (if truthy_opt (localStorage w !! "username")
              && truthy_opt (localStorage w !! "token")
           then [] else [loginPage])
  /\ (truthy_opt (localStorage w !! "username")
      && truthy_opt (localStorage w !! "token") = true
      <-> usable (localStorage w !! "username")
          /\ usable (localStorage w !! "token"))
  /\ (localStorage w !! "username" = None ->
      navigations (trace (snd (sessionCheck w)))
      = navigations (trace w) ++ [loginPage])
  /\ (localStorage w !! "token" = None ->
      navigations (trace (snd (sessionCheck w)))
      = navigations (trace w) ++ [loginPage]).
Proof.
  assert (Hnav : navigations (trace (snd (sessionCheck w)))
     = navigations (trace w)
       ++ (if truthy_opt (localStorage w !! "username")
              && truthy_opt (localStorage w !! "token")
           then [] else [loginPage])).
  { unfold sessionCheck, bind, getItem. cbn.
    destruct (truthy_opt (localStorage w !! "username"));
      destruct (truthy_opt (localStorage w !! "token")); cbn;
      rewrite !navigations_app; cbn; now rewrite ?app_nil_r. }
  split.
  { unfold sessionCheck, bind, getItem. cbn.
    destruct (truthy_opt (localStorage w !! "username"));
      destruct (truthy_opt (localStorage w !! "token")); reflexivity. }
  split; [exact Hnav |].
  split.
  { rewrite andb_true_iff, !truthy_opt_usable. reflexivity. }
  split; intros H; rewrite Hnav, H; cbn; rewrite ?andb_false_r; reflexivity.
Qed.

(** The theorem at a page whose storage lacks both keys. *)
Lemma sessionCheck_redirects_unless_both_usable_witness :
  localStorage (start ∅) !! "username" = None
  /\ navigations (trace (snd (sessionCheck (start ∅)))) = [loginPage].
Proof.
  split; [reflexivity |].
  destruct (sessionCheck_redirects_unless_both_usable (start ∅))
    as (_ & _ & _ & H & _).
  apply H. reflexivity.
Defined.

(** C4, as stated, fails: with an empty [username] stored next to a
    token, both values are present, and the check redirects all the same. *)
Lemma sessionCheck_redirects_on_empty_username :
  is_Some ((<["username" := []]> (<["token" := lit "abc"]> ∅)
              : gmap string jsstring) !! "username")
  /\ is_Some ((<["username" := []]> (<["token" := lit "abc"]> ∅)
                 : gmap string jsstring) !! "token")
  /\ navigations
       (trace (snd (sessionCheck
                      (start (<["username" := []]> (<["token" := lit "abc"]> ∅))))))
     = [loginPage].
Proof.
  split; [eexists; reflexivity |]. split; [eexists; reflexivity |]. reflexivity.
Qed.

(** ** The login flow *)

(** What [server || fallback] stores: the server's value when it is
    there and not empty, else the fallback. *)
Lemma or_else_spec (v : option jsstring) (fallback : jsstring) :
  or_else v fallback
  = match v with
    | Some [] => fallback
    | Some s => s
    | None => fallback
    end.
Proof. destruct v as [[|c s]|]; reflexivity. Qed.

(** C5, as the code has it.  After a successful login response, the
    stored token is the server's token when the response has one that is
    not empty, else the placeholder; the stored username is the server's
    username when the response has one that is not empty, else the
    trimmed submitted username; nothing else in local storage changes. *)
Theorem login_stores_token_and_username
    (usernameField passwordField responseText : jsstring)
    (data : loginBody) (w : world) :
  truthy (trim usernameField) = true ->
  truthy (trim passwordField) = true ->
  localStorage
    (snd (loginBtn_click usernameField passwordField
            (Resolved {| ok := true; text := responseText; json := Normal data |})
            w))
  = <["username" := match data_username data with
                    | Some [] => trim usernameField
                    | Some s => s
                    | None => trim usernameField
                    end]>
      (<["token" := match data_token data with
                    | Some [] => mockToken
                    | Some s => s
                    | None => mockToken
                    end]> (localStorage w)).
Proof.
  intros Hu Hp. unfold loginBtn_click. rewrite Hu, Hp. cbn.
  now rewrite !or_else_spec.
Qed.

(** The two responses of the specification: a token and no username;
    neither. *)
Lemma login_stores_token_and_username_witness :
  truthy (trim (lit "alice")) = true
  /\ truthy (trim (lit "secret")) = true
  /\ localStorage
       (snd (loginBtn_click (lit "alice") (lit "secret")
               (Resolved {| ok := true; text := [];
                            json := Normal {| data_token := Some (lit "abc");
                                              data_username := None |} |})
               (start ∅)))
     = <["username" := lit "alice"]> (<["token" := lit "abc"]> ∅)
  /\ localStorage
       (snd (loginBtn_click (lit "alice") (lit "secret")
               (Resolved {| ok := true; text := [];
                            json := Normal {| data_token := None;
                                              data_username := None |} |})
               (start ∅)))
     = <["username" := lit "alice"]> (<["token" := mockToken]> ∅).
Proof.
  split; [reflexivity |]. split; [reflexivity |].
  split.
  - apply (login_stores_token_and_username (lit "alice") (lit "secret") []
             {| data_token := Some (lit "abc"); data_username := None |}
             (start ∅)); reflexivity.
  - apply (login_stores_token_and_username (lit "alice") (lit "secret") []
             {| data_token := None; data_username := None |}
             (start ∅)); reflexivity.
Defined.

(** C5, as stated, fails: a response that supplies an empty token has
    the placeholder stored in its place. *)
Lemma login_empty_token_replaced :
  localStorage
    (snd (loginBtn_click (lit "alice") (lit "secret")
            (Resolved {| ok := true; text := [];
                         json := Normal {| data_token := Some [];
                                           data_username := None |} |})
            (start ∅))) !! "token"
  = Some mockToken
  /\ mockToken <> [].
Proof. split; [reflexivity | discriminate]. Qed.

Lemma or_else_truthy v fallback :
  truthy fallback = true -> truthy (or_else v fallback) = true.
Proof.
  intros H. unfold or_else. destruct v as [s|]; [| exact H].
  destruct (truthy s) eqn:E; [exact E | exact H].
Qed.

(** What a successful login stores satisfies the session guard: the two
    values are never empty, so a check that runs on that storage does not
    redirect. *)
Lemma login_then_sessionCheck
    (usernameField passwordField responseText : jsstring)
    (data : loginBody) (w : world) :
  truthy (trim usernameField) = true ->
  truthy (trim passwordField) = true ->
  navigations
    (trace (snd (sessionCheck
       (start (localStorage
          (snd (loginBtn_click usernameField passwordField
                  (Resolved {| ok := true; text := responseText;
                               json := Normal data |})
                  w)))))))
  = [].
Proof.
  intros Hu Hp. unfold loginBtn_click. rewrite Hu, Hp. cbn.
  unfold sessionCheck, bind, getItem. cbn.
  rewrite lookup_insert_eq, lookup_insert_ne, lookup_insert_eq by done.
  cbn. rewrite !or_else_truthy by (exact Hu || reflexivity).
  reflexivity.
Qed.

(** ** Change password *)

(** C6, as the code has it.  On a failure response whose body parses,
    one alert is shown: the fixed failure prefix followed by the
    response's [error] field, or by the generic message when that field is
    missing or empty; local storage is unchanged and no navigation takes
    place.  In every run of the handler local storage is either
    unchanged, or the response was a success and the three keys were
    removed after the confirmation alert, with the replacement of the
    page by the login page as the last effect. *)
Theorem changePwd_failure_keeps_session
    (oldAnswer newAnswer : option jsstring) (net : outcome pwdBody) (w : world) :
  (forall (responseText : jsstring) (data : pwdBody),
     truthy_opt (localStorage w !! "username") = true ->
     truthy_opt oldAnswer = true ->
     truthy_opt newAnswer = true ->
     net = Resolved {| ok := false; text := responseText; json := Normal data |} ->
     alerts (trace (snd (changePwdBtn_click oldAnswer newAnswer net w)))
     = alerts (trace w)
       ++ [failurePrefix ++ match data_error data with
                            | Some [] => msgChangeFailed
                            | Some s => s
                            | None => msgChangeFailed
                            end]
     /\ localStorage (snd (changePwdBtn_click oldAnswer newAnswer net w))
        = localStorage w
     /\ navigations (trace (snd (changePwdBtn_click oldAnswer newAnswer net w)))
        = navigations (trace w))
  /\ (localStorage (snd (changePwdBtn_click oldAnswer newAnswer net w))
      = localStorage w
      \/ exists (resp : response pwdBody) (data : pwdBody),
           net = Resolved resp /\ ok resp = true /\ json resp = Normal data
           /\ localStorage (snd (changePwdBtn_click oldAnswer newAnswer net w))
              = delete "theme" (delete "token" (delete "username" (localStorage w)))
           /\ trace (snd (changePwdBtn_click oldAnswer newAnswer net w))
              = trace w
                ++ [Fetch (lit "/api/change_password")
                      (changePwdBody (localStorage w) oldAnswer newAnswer);
                    Alert (or_else (data_message data) msgChanged);
                    LocationReplace loginPage]).
Proof.
  split.
  - intros responseText data Hu Ho Hn ->.
    unfold changePwdBtn_click, bind, getItem. cbn. rewrite Hu, Ho, Hn. cbn.
    rewrite or_else_spec, !alerts_app, !navigations_app. cbn.
    rewrite !app_nil_r. repeat split; reflexivity.
  - unfold changePwdBtn_click, bind, getItem. cbn.
    destruct (truthy_opt (localStorage w !! "username")); cbn; [| now left].
    destruct (truthy_opt oldAnswer); cbn; [| now left].
    destruct (truthy_opt newAnswer); cbn; [| now left].
    destruct net as [m|[[] t [data|m]]]; cbn; try (now left).
    right. eexists _, data. repeat split.
    now rewrite <- !app_assoc.
Qed.

(** The failure response of the specification, for a logged-in user. *)
Lemma changePwd_failure_keeps_session_witness :
  truthy_opt
    (localStorage
       (start (<["username" := lit "alice"]> (<["token" := lit "abc"]> ∅)))
     !! "username") = true
  /\ alerts
       (trace (snd (changePwdBtn_click (Some (lit "old")) (Some (lit "new"))
          (Resolved {| ok := false; text := [];
                       json := Normal {| data_error := Some (lit "wrong password");
                                         data_message := None |} |})
          (start (<["username" := lit "alice"]> (<["token" := lit "abc"]> ∅))))))
     = [failurePrefix ++ lit "wrong password"]
  /\ localStorage
       (snd (changePwdBtn_click (Some (lit "old")) (Some (lit "new"))
          (Resolved {| ok := false; text := [];
                       json := Normal {| data_error := Some (lit "wrong password");
                                         data_message := None |} |})
          (start (<["username" := lit "alice"]> (<["token" := lit "abc"]> ∅)))))
     = <["username" := lit "alice"]> (<["token" := lit "abc"]> ∅).
Proof.
  split; [reflexivity |].
  destruct (changePwd_failure_keeps_session (Some (lit "old")) (Some (lit "new"))
              (Resolved {| ok := false; text := [];
                           json := Normal {| data_error := Some (lit "wrong password");
                                             data_message := None |} |})
              (start (<["username" := lit "alice"]> (<["token" := lit "abc"]> ∅))))
    as [H _].
  destruct (H [] {| data_error := Some (lit "wrong password");
                    data_message := None |}) as (Ha & Hs & _);
    try reflexivity.
  split; [exact Ha | exact Hs].
Defined.

(** C6, as stated, fails: on the failure response with the error
    [wrong password], what is displayed is not that text but the failure
    prefix followed by it. *)
Lemma changePwd_alert_is_prefixed :
  alerts (trace (snd (changePwdBtn_click (Some (lit "old")) (Some (lit "new"))
            (Resolved {| ok := false; text := [];
                         json := Normal {| data_error := Some (lit "wrong password");
                                           data_message := None |} |})
            (start (<["username" := lit "alice"]> (<["token" := lit "abc"]> ∅))))))
  = [failurePrefix ++ lit "wrong password"]
  /\ failurePrefix ++ lit "wrong password" <> lit "wrong password".
Proof. split; [reflexivity | discriminate]. Qed.

(** * Further properties of the client *)

(** ** [escapeHtml] *)

Lemma escapeChar_nonempty c : escapeChar c <> [].
Proof. unfold escapeChar. five_chars c; discriminate. Qed.

Lemma escapeChar_length c :
  (1 <= length (escapeChar c) <= 6)%nat
  /\ (length (escapeChar c) = 1%nat <-> isEscapedChar c = false).
Proof.
  unfold escapeChar, isEscapedChar, isMarkupChar.
  five_chars c; simpl; (split; [lia |]); split; intros H;
    try discriminate; try lia; try reflexivity.
Qed.

Lemma flat_map_escapeChar_inj s t :
  flat_map escapeChar s = flat_map escapeChar t -> s = t.
Proof.
  revert t. induction s as [|c s IH]; intros [|d t]; simpl; intros H.
  - reflexivity.
  - symmetry in H. apply app_eq_nil in H as [H _].
    now apply escapeChar_nonempty in H.
  - apply app_eq_nil in H as [H _]. now apply escapeChar_nonempty in H.
  - revert H. unfold escapeChar.
    five_chars c; five_chars d; simpl; intros [= H]; subst;
      try contradiction; try discriminate;
      try (f_equal; now apply IH).
Qed.

Lemma escapeHtml_inj s t : escapeHtml s = escapeHtml t -> s = t.
Proof. rewrite !escapeHtml_flat_map. apply flat_map_escapeChar_inj. Qed.

(** X1.  [escapeHtml] loses nothing: two texts have the same escaped form
    only if they are the same text. *)
Theorem escapeHtml_injective (s t : jsstring) :
  escapeHtml s = escapeHtml t <-> s = t.
Proof. split; [apply escapeHtml_inj | now intros ->]. Qed.

Lemma escapeHtml_length_ge s : (length s <= length (escapeHtml s))%nat.
Proof.
  rewrite escapeHtml_flat_map.
  induction s as [|c s IH]; simpl; [lia |].
  rewrite length_app. pose proof (escapeChar_length c) as [H _]. lia.
Qed.

(** X2.  The escaped text is at least as long as the text and at most
    six times as long, and it is the text itself exactly when the text
    holds none of the five characters. *)
Theorem escapeHtml_length_and_fixpoints (s : jsstring) :
  (length s <= length (escapeHtml s) <= 6 * length s)%nat
  /\ (escapeHtml s = s <-> forallb (fun c => negb (isEscapedChar c)) s = true).
Proof.
  split.
  - split; [apply escapeHtml_length_ge |].
    rewrite escapeHtml_flat_map.
    induction s as [|c s IH]; simpl; [lia |].
    rewrite length_app. pose proof (escapeChar_length c) as [H _]. lia.
  - split.
    + intros H. apply (f_equal (@length N)) in H.
      rewrite escapeHtml_flat_map in H.
      induction s as [|c s IH]; [reflexivity |].
      simpl in H. rewrite length_app in H.
      pose proof (escapeChar_length c) as [Hc Hone].
      pose proof (escapeHtml_length_ge s) as Hs.
      rewrite escapeHtml_flat_map in Hs.
      simpl. rewrite (proj1 Hone) by lia. simpl. apply IH. lia.
    + intros H. rewrite escapeHtml_flat_map.
      induction s as [|c s IH]; [reflexivity |].
      simpl in H. apply andb_prop in H as [Hc H].
      simpl. rewrite IH by exact H.
      apply negb_true_iff in Hc. revert Hc.
      unfold isEscapedChar, isMarkupChar, escapeChar.
      five_chars c; simpl; intros; try discriminate; reflexivity.
Qed.

(** X3.  Escaping a text in pieces and joining the results is escaping
    the whole text; and escaping is not idempotent: a second pass rewrites
    the ampersand of every entity the first pass wrote, so it changes the
    text exactly when the first pass did. *)
Theorem escapeHtml_composes (s t : jsstring) :
  escapeHtml (s ++ t) = escapeHtml s ++ escapeHtml t
  /\ (escapeHtml (escapeHtml s) = escapeHtml s <-> escapeHtml s = s).
Proof.
  split; [apply escapeHtml_app |].
  split.
  - intros H. symmetry. now apply escapeHtml_inj.
  - intros H. now rewrite !H.
Qed.

(** ** [split], [title] and [desc] *)

Lemma takeWhile_dropWhile p s : takeWhile p s ++ dropWhile p s = s.
Proof.
  induction s as [|c s IH]; simpl; [reflexivity |].
  destruct (p c); simpl; [now rewrite IH | reflexivity].
Qed.

Lemma forallb_takeWhile p s : forallb p (takeWhile p s) = true.
Proof.
  induction s as [|c s IH]; simpl; [reflexivity |].
  destruct (p c) eqn:E; simpl; [now rewrite E | reflexivity].
Qed.

Lemma execSep_Some s capture after :
  execSep s = Some (capture, after) ->
  s = ch_colon :: capture ++ after
  /\ capture <> []
  /\ forallb notLineTerminator capture = true.
Proof.
  destruct s as [|c rest]; simpl; [discriminate |].
  destruct (N.eqb_spec c ch_colon) as [->|]; [| discriminate].
  destruct (takeWhile notLineTerminator rest) as [|x cap] eqn:E; [discriminate |].
  intros [= <- <-]. rewrite <- E.
  split; [now rewrite takeWhile_dropWhile |].
  split; [rewrite E; discriminate | apply forallb_takeWhile].
Qed.

Lemma joinParts_splitLoop fuel piece rest :
  (length rest < fuel)%nat ->
  joinParts (splitLoop fuel piece rest) = piece ++ rest.
Proof.
  revert piece rest.
  induction fuel as [|fuel IH]; intros piece rest H; [lia |].
  destruct rest as [|c rest']; [simpl; now rewrite app_nil_r |].
  cbn [splitLoop].
  destruct (execSep (c :: rest')) as [[capture after]|] eqn:E.
  - pose proof (execSep_shorter _ _ _ E) as Hlen.
    apply execSep_Some in E as (E & _ & _). rewrite E.
    cbn [joinParts]. rewrite IH by (simpl in *; lia). reflexivity.
  - rewrite IH by (simpl in H; lia). now rewrite <- app_assoc.
Qed.

Lemma splitLoop_odd fuel piece rest :
  (length rest < fuel)%nat ->
  Nat.odd (length (splitLoop fuel piece rest)) = true.
Proof.
  revert piece rest.
  induction fuel as [|fuel IH]; intros piece rest H; [lia |].
  destruct rest as [|c rest']; [reflexivity |].
  cbn [splitLoop].
  destruct (execSep (c :: rest')) as [[capture after]|] eqn:E.
  - apply execSep_shorter in E.
    cbn [length]. rewrite Nat.odd_succ_succ. apply IH. simpl in *. lia.
  - apply IH. simpl in H. lia.
Qed.

(** X4.  [split] only takes out the colons its pattern matched: a label
    always splits into an odd number of parts, pieces and captures in
    turn, and writing the parts back with a colon before each capture
    gives the label again. *)
Theorem split_joinParts (label : jsstring) :
  joinParts (split label) = label
  /\ Nat.odd (length (split label)) = true.
Proof.
  unfold split. split.
  - apply joinParts_splitLoop. lia.
  - apply splitLoop_odd. lia.
Qed.

Lemma splitLoop_capture fuel piece rest capture :
  splitLoop fuel piece rest !! 1%nat = Some capture ->
  capture <> [] /\ forallb notLineTerminator capture = true.
Proof.
  revert piece rest.
  induction fuel as [|fuel IH]; intros piece rest; [discriminate |].
  destruct rest as [|c rest']; [discriminate |].
  cbn [splitLoop].
  destruct (execSep (c :: rest')) as [[cap after]|] eqn:E.
  - intros [= <-]. apply execSep_Some in E as (_ & H1 & H2). now split.
  - apply IH.
Qed.

Lemma forallb_dropWhile p q s :
  forallb p s = true -> forallb p (dropWhile q s) = true.
Proof.
  induction s as [|c s IH]; simpl; [reflexivity |].
  intros H. destruct (q c); [| exact H].
  apply andb_prop in H as [_ H]. now apply IH.
Qed.

Lemma forallb_rev p (s : jsstring) : forallb p (rev s) = forallb p s.
Proof.
  induction s as [|c s IH]; simpl; [reflexivity |].
  rewrite forallb_app, IH. simpl. rewrite andb_true_r. apply andb_comm.
Qed.

Lemma forallb_trim p s : forallb p s = true -> forallb p (trim s) = true.
Proof.
  intros H. unfold trim, trimEnd, trimStart.
  rewrite forallb_rev. apply forallb_dropWhile.
  rewrite forallb_rev. now apply forallb_dropWhile.
Qed.

(** X5.  Whatever the label, the description holds no line terminator:
    it is cut from a single line of the label. *)
Theorem desc_single_line (label : jsstring) :
  forallb notLineTerminator (desc label) = true.
Proof.
  unfold desc, trimmedPart.
  destruct (split label !! 1%nat) as [capture|] eqn:E; [| reflexivity].
  apply splitLoop_capture in E as [_ H].
  destruct (truthy capture); [now apply forallb_trim | reflexivity].
Qed.

(** X6.  A label with no colon is its own title and has no description
    block.  A label whose first colon is followed by a character that is
    not a line terminator has as title the trimmed text before that colon
    and as description the trimmed rest of that line; when the label is a
    single line, that is the trimmed text after the colon. *)
Theorem title_desc_by_first_colon (a b : jsstring) :
  forallb notColon a = true ->
  (title a = trim a /\ desc a = [] /\ descBlock (escapeHtml (desc a)) = [])
  /\ (takeWhile notLineTerminator b <> [] ->
      title (a ++ ch_colon :: b) = trim a
      /\ desc (a ++ ch_colon :: b) = trim (takeWhile notLineTerminator b))
  /\ (b <> [] -> forallb notLineTerminator b = true ->
      desc (a ++ ch_colon :: b) = trim b).
Proof.
  intros Ha. split; [now apply title_no_colon |].
  split; [now apply title_desc_first_colon |].
  intros Hb Hline.
  assert (E : takeWhile notLineTerminator b = b) by now apply takeWhile_all.
  destruct (title_desc_first_colon a b Ha) as [_ Hd]; [now rewrite E |].
  now rewrite Hd, E.
Qed.

(** The theorem at the title [Reentrancy] and a one-line description. *)
Lemma title_desc_by_first_colon_witness :
  forallb notColon (lit "Reentrancy") = true
  /\ title (lit "Reentrancy: call before update: line 7") = lit "Reentrancy"
  /\ desc (lit "Reentrancy: call before update: line 7")
     = lit "call before update: line 7".
Proof.
  split; [reflexivity |].
  destruct (title_desc_by_first_colon (lit "Reentrancy")
              (lit " call before update: line 7")) as (_ & H & _);
    [reflexivity |].
  destruct H as [Ht Hd]; [discriminate |].
  split; [exact Ht | exact Hd].
Defined.

Lemma dropWhile_idem p s : dropWhile p (dropWhile p s) = dropWhile p s.
Proof.
  induction s as [|c s IH]; simpl; [reflexivity |].
  destruct (p c) eqn:E; [exact IH | simpl; now rewrite E].
Qed.

Lemma dropWhile_snoc p s c :
  p c = false -> dropWhile p (s ++ [c]) = dropWhile p s ++ [c].
Proof.
  intros Hc. induction s as [|x s IH]; simpl; [now rewrite Hc |].
  destruct (p x); [exact IH | reflexivity].
Qed.

Lemma trimStart_trimEnd s :
  trimStart s = s -> trimStart (trimEnd s) = trimEnd s.
Proof.
  unfold trimStart, trimEnd. destruct s as [|c s]; [reflexivity |].
  simpl. destruct (isStrWhiteSpaceChar c) eqn:E.
  - intros H. pose proof (dropWhile_length isStrWhiteSpaceChar s) as Hl.
    rewrite H in Hl. simpl in Hl. lia.
  - intros _. rewrite dropWhile_snoc by exact E.
    rewrite rev_app_distr. simpl. now rewrite E.
Qed.

Lemma trim_idem s : trim (trim s) = trim s.
Proof.
  unfold trim.
  rewrite trimStart_trimEnd by apply dropWhile_idem.
  unfold trimEnd. now rewrite rev_involutive, dropWhile_idem.
Qed.

Lemma trimmedPart_trimmed parts i :
  trim (trimmedPart parts i) = trimmedPart parts i.
Proof.
  unfold trimmedPart. destruct (parts !! i) as [p|]; [| reflexivity].
  destruct (truthy p); [apply trim_idem | reflexivity].
Qed.

(** X7.  The title and the description never begin or end with white
    space (trimming them again changes nothing), and the description
    block is left out of the card exactly when the description is
    empty. *)
Theorem title_desc_trimmed (label : jsstring) :
  trim (title label) = title label
  /\ trim (desc label) = desc label
  /\ (descBlock (escapeHtml (desc label)) = [] <-> desc label = []).
Proof.
  split; [apply trimmedPart_trimmed |].
  split; [apply trimmedPart_trimmed |].
  unfold descBlock. rewrite truthy_escapeHtml.
  destruct (desc label) as [|c s]; simpl; split; intros H;
    try reflexivity; discriminate.
Qed.

(** ** [showResults] *)

Lemma cards_map_card ls d0 :
  cards {| markup := d0; appended := map card ls |} = map card ls.
Proof.
  unfold cards. simpl. induction ls as [|l ls IH]; [reflexivity |].
  simpl. rewrite IH. reflexivity.
Qed.

(** X8.  What [showResults] leaves in the container does not depend on
    what was there: with no label it is the notice alone; with labels it
    is one card per label, in the order of the labels and without
    dropping repeated ones, and no notice. *)
Theorem showResults_one_card_per_label (data : detection) (d : container) :
  showResults data d
  = match labelsOf data with
    | [] => {| markup := noFindingsHtml; appended := [] |}
    | l :: ls => {| markup := []; appended := map card (l :: ls) |}
    end
  /\ cards (showResults data d) = map card (labelsOf data)
  /\ length (cards (showResults data d)) = length (labelsOf data)
  /\ notices (showResults data d)
     = match labelsOf data with [] => 1%nat | _ :: _ => 0%nat end.
Proof.
  assert (H : showResults data d
    = match labelsOf data with
      | [] => {| markup := noFindingsHtml; appended := [] |}
      | l :: ls => {| markup := []; appended := map card (l :: ls) |}
      end).
  { unfold showResults, labelsOf.
    destruct (labels data) as [[|l ls]|]; try reflexivity.
    cbn [length Nat.eqb]. rewrite fold_appendChild. reflexivity. }
  split; [exact H |]. rewrite H.
  destruct (labelsOf data) as [|l ls].
  - repeat split; reflexivity.
  - rewrite cards_map_card, length_map. repeat split; reflexivity.
Qed.

(** ** The detection flow *)

(** X9.  When the source text is empty or only white space, [predict]
    alerts and does nothing else: no request is sent, and the results,
    the progress line and local storage stay as they were. *)
Theorem predict_requires_source
    (inputValue thresholdValue : jsstring) (net : outcome detection) (w : world) :
  truthy (trim inputValue) = false ->
  predict inputValue thresholdValue net w
  = (Normal tt,
     {| localStorage := localStorage w;
        resultsDiv := resultsDiv w;
        progressDiv := progressDiv w;
        trace := trace w ++ [Alert msgNoSource] |}).
Proof. intros H. unfold predict. rewrite H. reflexivity. Qed.

(** The theorem at a source text of two spaces and a line feed. *)
Lemma predict_requires_source_witness :
  truthy (trim [32; 32; 10]) = false
  /\ predict [32; 32; 10] (lit "0.5") (Rejected []) (start ∅)
     = (Normal tt,
        {| localStorage := ∅;
           resultsDiv := cleared;
           progressDiv := [];
           trace := [Alert msgNoSource] |}).
Proof.
  split; [reflexivity |].
  apply (predict_requires_source [32; 32; 10] (lit "0.5") (Rejected []) (start ∅)).
  reflexivity.
Defined.

(** X10.  With a source text, [predict] sends one request and ends
    normally whatever comes back.  On a parsed success body the results
    are those of [showResults] and the progress line reports completion;
    on a rejected request, a non-success status or an unparsable body the
    old results are gone, nothing is rendered, and the progress line
    carries the failure text.  No alert is shown, local storage is not
    touched and the page does not navigate. *)
Theorem predict_outcome
    (inputValue thresholdValue : jsstring) (net : outcome detection) (w : world) :
  truthy (trim inputValue) = true ->
  fst (predict inputValue thresholdValue net w) = Normal tt
  /\ resultsDiv (snd (predict inputValue thresholdValue net w))
     = match bodyOf net with
       | Normal data => showResults data cleared
       | Throw _ => cleared
       end
  /\ progressDiv (snd (predict inputValue thresholdValue net w))
     = match bodyOf net with
       | Normal _ => msgDetected
       | Throw m => msgDetectFailed ++ m
       end
  /\ trace (snd (predict inputValue thresholdValue net w))
     = trace w ++ [Fetch (lit "/api/predict") (predictBody inputValue thresholdValue)]
  /\ localStorage (snd (predict inputValue thresholdValue net w)) = localStorage w.
Proof.
  intros H. unfold predict. rewrite H.
  destruct net as [m|[[] t [data|m]]]; repeat split; reflexivity.
Qed.

(** The theorem at a request the server refuses. *)
Lemma predict_outcome_witness :
  truthy (trim (lit "contract C {}")) = true
  /\ resultsDiv
       (snd (predict (lit "contract C {}") []
               (Resolved {| ok := false; text := lit "model not loaded";
                            json := Throw [] |})
               (start ∅)))
     = cleared
  /\ progressDiv
       (snd (predict (lit "contract C {}") []
               (Resolved {| ok := false; text := lit "model not loaded";
                            json := Throw [] |})
               (start ∅)))
     = msgDetectFailed ++ lit "model not loaded".
Proof.
  split; [reflexivity |].
  destruct (predict_outcome (lit "contract C {}") []
              (Resolved {| ok := false; text := lit "model not loaded";
                           json := Throw [] |})
              (start ∅)) as (_ & Hr & Hp & _); [reflexivity |].
  split; [exact Hr | exact Hp].
Defined.

Lemma parseFloat_white_space s :
  forallb isStrWhiteSpaceChar s = true -> parseFloat s = NaN.
Proof.
  intros H. unfold parseFloat, trimStart. now rewrite dropWhile_all.
Qed.

(** X11.  A threshold input that is not empty but holds only white space
    does not get the default: no number can be read from it, and the
    predict request carries [null] as its threshold. *)
Theorem threshold_white_space
    (inputValue value : jsstring) (net : outcome detection) (w : world) :
  truthy (trim inputValue) = true ->
  value <> [] ->
  forallb isStrWhiteSpaceChar value = true ->
  threshold value = NaN
  /\ requests (trace (snd (predict inputValue value net w)))
     = requests (trace w)
       ++ [(lit "/api/predict",
            <["text" := VStr (trim inputValue)]>
              (<["threshold" := VNull]> ∅))].
Proof.
  intros Hsrc Hne Hws.
  assert (E : threshold value = NaN).
  { unfold threshold, thresholdArg.
    destruct value as [|c s]; [contradiction |].
    now apply parseFloat_white_space. }
  split; [exact E |].
  rewrite predict_requests, Hsrc, predictBody_sent, E. reflexivity.
Qed.

(** The theorem at a threshold input of one space. *)
Lemma threshold_white_space_witness :
  truthy (trim (lit "contract C {}")) = true
  /\ [32] <> ([] : jsstring)
  /\ forallb isStrWhiteSpaceChar [32] = true
  /\ requests (trace (snd (predict (lit "contract C {}") [32]
                             (Rejected []) (start ∅))))
     = [(lit "/api/predict",
         <["text" := VStr (lit "contract C {}")]>
           (<["threshold" := VNull]> ∅))].
Proof.
  split; [reflexivity |]. split; [discriminate |]. split; [reflexivity |].
  destruct (threshold_white_space (lit "contract C {}") [32] (Rejected [])
              (start ∅)) as [_ H]; [reflexivity | discriminate | reflexivity |].
  exact H.
Defined.

(** ** The reload action *)

(** X12.  [reloadBtn]'s handler ends normally whatever comes back.  Only
    a success status brings the confirmation alert and the switched
    message; a rejected request or a non-success status puts the failure
    text on the progress line and shows no alert.  The results and local
    storage are not touched. *)
Theorem reload_outcome
    (adapter base : option jsstring) (net : outcome unit) (w : world) :
  fst (reloadBtn_click adapter base net w) = Normal tt
  /\ progressDiv (snd (reloadBtn_click adapter base net w))
     = match net with
       | Rejected m => msgSwitchFailed ++ m
       | Resolved resp =>
           if ok resp then msgSwitched else msgSwitchFailed ++ text resp
       end
  /\ trace (snd (reloadBtn_click adapter base net w))
     = trace w
       ++ Fetch (lit "/api/reload") (reloadPayload adapter base)
          :: match net with
             | Rejected _ => []
             | Resolved resp => if ok resp then [Alert msgReloaded] else []
             end
  /\ resultsDiv (snd (reloadBtn_click adapter base net w)) = resultsDiv w
  /\ localStorage (snd (reloadBtn_click adapter base net w)) = localStorage w.
Proof.
  unfold reloadBtn_click.
  destruct net as [m|[[] t j]]; cbn; rewrite <- ?app_assoc; repeat split; reflexivity.
Qed.

(** ** The login flow *)

(** X13.  When the user name or the password is empty after trimming,
    the login handler shows the inline error in red and does nothing
    else: no request is sent and local storage is unchanged. *)
Theorem login_requires_credentials
    (usernameField passwordField : jsstring) (net : outcome loginBody) (w : world) :
  truthy (trim usernameField) && truthy (trim passwordField) = false ->
  loginBtn_click usernameField passwordField net w
  = (Normal tt,
     {| localStorage := localStorage w;
        resultsDiv := resultsDiv w;
        progressDiv := progressDiv w;
        trace := trace w ++ [ShowMsg msgMissing (lit "red")] |}).
Proof.
  intros H. unfold loginBtn_click.
  destruct (truthy (trim usernameField)), (truthy (trim passwordField));
    try discriminate; reflexivity.
Qed.

(** The theorem at a user name with a password of blanks. *)
Lemma login_requires_credentials_witness :
  truthy (trim (lit "alice")) && truthy (trim (lit "   ")) = false
  /\ loginBtn_click (lit "alice") (lit "   ") (Rejected []) (start ∅)
     = (Normal tt,
        {| localStorage := ∅;
           resultsDiv := cleared;
           progressDiv := [];
           trace := [ShowMsg msgMissing (lit "red")] |}).
Proof.
  split; [reflexivity |].
  apply (login_requires_credentials (lit "alice") (lit "   ") (Rejected []) (start ∅)).
  reflexivity.
Defined.

(** X14.  With both credentials, the login handler sends them trimmed in
    one request and ends normally.  On a parsed success body it shows the
    success message in green and schedules the move to the main page
    after 3000 ms.  On a rejected request, a non-success status or an
    unparsable body it shows the failure prefix followed by the error
    text in red, schedules nothing and leaves local storage as it was. *)
Theorem login_outcome
    (usernameField passwordField : jsstring) (net : outcome loginBody) (w : world) :
  truthy (trim usernameField) = true ->
  truthy (trim passwordField) = true ->
  fst (loginBtn_click usernameField passwordField net w) = Normal tt
  /\ trace (snd (loginBtn_click usernameField passwordField net w))
     = trace w
       ++ Fetch (lit "/api/login") (loginRequest usernameField passwordField)
          :: match bodyOf net with
             | Normal _ => [ShowMsg msgLoggedIn (lit "green");
                            NavigateAfter 3000 indexPage]
             | Throw m => [ShowMsg (msgLoginFailed ++ m) (lit "red")]
             end
  /\ match bodyOf net with
     | Normal _ => True
     | Throw _ =>
         localStorage (snd (loginBtn_click usernameField passwordField net w))
         = localStorage w
     end.
Proof.
  intros Hu Hp. unfold loginBtn_click. rewrite Hu, Hp.
  destruct net as [m|[[] t [data|m]]]; cbn; rewrite <- ?app_assoc;
    repeat split; reflexivity.
Qed.

(** The theorem at a login the server refuses. *)
Lemma login_outcome_witness :
  truthy (trim (lit " alice ")) = true
  /\ truthy (trim (lit "secret")) = true
  /\ trace (snd (loginBtn_click (lit " alice ") (lit "secret")
                   (Resolved {| ok := false; text := lit "bad credentials";
                                json := Throw [] |})
                   (start ∅)))
     = [Fetch (lit "/api/login")
          (<["username" := VStr (lit "alice")]>
             (<["password" := VStr (lit "secret")]> ∅));
        ShowMsg (msgLoginFailed ++ lit "bad credentials") (lit "red")].
Proof.
  split; [reflexivity |]. split; [reflexivity |].
  destruct (login_outcome (lit " alice ") (lit "secret")
              (Resolved {| ok := false; text := lit "bad credentials";
                           json := Throw [] |})
              (start ∅)) as (_ & Ht & _); [reflexivity | reflexivity |].
  exact Ht.
Defined.

(** ** Change password *)

(** X15.  Without a usable stored user name the change-password handler
    alerts and goes to the login page without asking for a password or
    sending anything.  With one, a cancelled or empty answer to either
    prompt ends the handler with no effect at all. *)
Theorem changePwd_guards
    (oldAnswer newAnswer : option jsstring) (net : outcome pwdBody) (w : world) :
  (truthy_opt (localStorage w !! "username") = false ->
   changePwdBtn_click oldAnswer newAnswer net w
   = (Normal tt,
      {| localStorage := localStorage w;
         resultsDiv := resultsDiv w;
         progressDiv := progressDiv w;
         trace := trace w ++ [Alert msgLoginFirst; SetHref loginPage] |}))
  /\ (truthy_opt (localStorage w !! "username") = true ->
      truthy_opt oldAnswer && truthy_opt newAnswer = false ->
      changePwdBtn_click oldAnswer newAnswer net w = (Normal tt, w)).
Proof.
  split.
  - intros H. unfold changePwdBtn_click, bind, getItem, emit. rewrite H.
    simpl. rewrite <- app_assoc. reflexivity.
  - intros Hu H. unfold changePwdBtn_click, bind, getItem. rewrite Hu.
    destruct (truthy_opt oldAnswer), (truthy_opt newAnswer);
      try discriminate; reflexivity.
Qed.

(** The theorem at a logged-in user who cancels the second prompt. *)
Lemma changePwd_guards_witness :
  truthy_opt (localStorage (start (<["username" := lit "alice"]> ∅)) !! "username")
  = true
  /\ truthy_opt (Some (lit "old")) && truthy_opt None = false
  /\ changePwdBtn_click (Some (lit "old")) None (Rejected [])
       (start (<["username" := lit "alice"]> ∅))
     = (Normal tt, start (<["username" := lit "alice"]> ∅)).
Proof.
  split; [reflexivity |]. split; [reflexivity |].
  destruct (changePwd_guards (Some (lit "old")) None (Rejected [])
              (start (<["username" := lit "alice"]> ∅))) as [_ H].
  apply H; reflexivity.
Defined.

(** X16.  Once both passwords are given, a rejected request or a body
    that cannot be parsed (whatever the status, success included) ends in
    one alert, the failure prefix followed by the error text, and leaves
    the session in place: local storage is unchanged and the page does
    not navigate. *)
Theorem changePwd_broken_response_keeps_session
    (oldAnswer newAnswer : option jsstring) (net : outcome pwdBody)
    (m : jsstring) (w : world) :
  truthy_opt (localStorage w !! "username") = true ->
  truthy_opt oldAnswer = true ->
  truthy_opt newAnswer = true ->
  (net = Rejected m
   \/ exists status responseText,
        net = Resolved {| ok := status; text := responseText; json := Throw m |}) ->
  changePwdBtn_click oldAnswer newAnswer net w
  = (Normal tt,
     {| localStorage := localStorage w;
        resultsDiv := resultsDiv w;
        progressDiv := progressDiv w;
        trace := trace w
                 ++ [Fetch (lit "/api/change_password")
                       (changePwdBody (localStorage w) oldAnswer newAnswer);
                     Alert (failurePrefix ++ m)] |}).
Proof.
  intros Hu Ho Hn Hnet.
  unfold changePwdBtn_click, bind, getItem. rewrite Hu, Ho, Hn.
  destruct Hnet as [->|(status & responseText & ->)];
    unfold tryCatch, fetch, bind, emit, throw, readJson, ret; simpl;
    rewrite <- app_assoc; reflexivity.
Qed.

(** The theorem at a success status whose body is not JSON. *)
Lemma changePwd_broken_response_keeps_session_witness :
  truthy_opt (localStorage (start (<["username" := lit "alice"]> ∅)) !! "username")
  = true
  /\ localStorage
       (snd (changePwdBtn_click (Some (lit "old")) (Some (lit "new"))
               (Resolved {| ok := true; text := lit "<html>";
                            json := Throw (lit "Unexpected token") |})
               (start (<["username" := lit "alice"]> ∅))))
     = <["username" := lit "alice"]> ∅
  /\ alerts
       (trace (snd (changePwdBtn_click (Some (lit "old")) (Some (lit "new"))
               (Resolved {| ok := true; text := lit "<html>";
                            json := Throw (lit "Unexpected token") |})
               (start (<["username" := lit "alice"]> ∅)))))
     = [failurePrefix ++ lit "Unexpected token"].
Proof.
  split; [reflexivity |].
  rewrite (changePwd_broken_response_keeps_session
             (Some (lit "old")) (Some (lit "new"))
             (Resolved {| ok := true; text := lit "<html>";
                          json := Throw (lit "Unexpected token") |})
             (lit "Unexpected token")
             (start (<["username" := lit "alice"]> ∅)));
    try reflexivity.
  - split; reflexivity.
  - right. eexists _, _. reflexivity.
Defined.

(** ** The theme manager *)

Lemma applyTheme_run theme net w :
  applyTheme theme net w
  = (Normal {| dataTheme := theme; toggleText := labelFor theme |},
     {| localStorage := <["theme" := theme]> (localStorage w);
        resultsDiv := resultsDiv w;
        progressDiv := progressDiv w;
        trace := trace w ++ themeSync (localStorage w) theme net |}).
Proof.
  unfold applyTheme, bind, setItem, getItem, themeSync, themeBody, labelFor.
  simpl. rewrite !lookup_insert_ne by done.
  destruct (truthy_opt (localStorage w !! "username")).
  - destruct net; unfold tryCatch, fetch, bind, emit, throw, ret; simpl;
      rewrite <- ?app_assoc; reflexivity.
  - unfold ret. simpl. now rewrite app_nil_r.
Qed.

Lemma toggle_target stored :
  (if bool_decide (or_else stored lightTheme = darkTheme)
   then lightTheme else darkTheme)
  = nextTheme stored.
Proof.
  unfold nextTheme.
  destruct stored as [[|c s]|]; simpl; try reflexivity.
  destruct (decide (c :: s = darkTheme)) as [->|Hne]; [reflexivity |].
  rewrite !bool_decide_eq_false_2; [reflexivity | congruence | exact Hne].
Qed.

Lemma themeToggle_run net w :
  themeToggle_click net w
  = applyTheme (nextTheme (localStorage w !! "theme")) net w.
Proof.
  unfold themeToggle_click, bind, getItem. simpl. now rewrite toggle_target.
Qed.

(** X17.  A click on the toggle stores and applies the dark theme,
    unless the stored theme is exactly [dark], in which case it stores
    and applies the light one; the toggle's text is the one for the new
    theme.  The new theme is sent to the server only when a user name is
    stored; a rejected request is only logged.  Nothing else in local
    storage changes. *)
Theorem themeToggle_switches (net : outcome unit) (w : world) :
  themeToggle_click net w
  = (Normal {| dataTheme := nextTheme (localStorage w !! "theme");
               toggleText := labelFor (nextTheme (localStorage w !! "theme")) |},
     {| localStorage :=
          <["theme" := nextTheme (localStorage w !! "theme")]> (localStorage w);
        resultsDiv := resultsDiv w;
        progressDiv := progressDiv w;
        trace := trace w
                 ++ themeSync (localStorage w)
                      (nextTheme (localStorage w !! "theme")) net |})
  /\ (nextTheme (localStorage w !! "theme") = lightTheme
      /\ localStorage w !! "theme" = Some darkTheme
      \/ nextTheme (localStorage w !! "theme") = darkTheme
         /\ localStorage w !! "theme" <> Some darkTheme)
  /\ alerts (themeSync (localStorage w) (nextTheme (localStorage w !! "theme")) net)
     = [].
Proof.
  split; [rewrite themeToggle_run; apply applyTheme_run |].
  split.
  - unfold nextTheme.
    destruct (decide (localStorage w !! "theme" = Some darkTheme)) as [E|E].
    + left. now rewrite bool_decide_eq_true_2.
    + right. now rewrite bool_decide_eq_false_2.
  - unfold themeSync.
    destruct (truthy_opt (localStorage w !! "username")); [| reflexivity].
    destruct net; reflexivity.
Qed.

(** X18.  Two clicks on the toggle bring back a stored [dark] or
    [light] theme; from no stored theme, or from any other stored value,
    they end at [light]. *)
Theorem themeToggle_twice (net1 net2 : outcome unit) (w : world) :
  localStorage (snd (themeToggle_click net2 (snd (themeToggle_click net1 w))))
  = <["theme" := if bool_decide (localStorage w !! "theme" = Some darkTheme)
                 then darkTheme else lightTheme]> (localStorage w).
Proof.
  rewrite !themeToggle_run, !applyTheme_run. simpl.
  rewrite lookup_insert_eq, insert_insert_eq. unfold nextTheme.
  destruct (decide (localStorage w !! "theme" = Some darkTheme)) as [E|E].
  - rewrite (bool_decide_eq_true_2 _ E). reflexivity.
  - rewrite (bool_decide_eq_false_2 _ E). reflexivity.
Qed.

(** X19.  On load the page applies the stored theme, or [light] when
    none is stored or the stored one is empty.  A stored theme that is
    not empty is written back unchanged: local storage stays as it was. *)
Theorem initTheme_applies_stored (net : outcome unit) (w : world) :
  initTheme net w
  = (Normal {| dataTheme := initialTheme (localStorage w !! "theme");
               toggleText := labelFor (initialTheme (localStorage w !! "theme")) |},
     {| localStorage :=
          <["theme" := initialTheme (localStorage w !! "theme")]> (localStorage w);
        resultsDiv := resultsDiv w;
        progressDiv := progressDiv w;
        trace := trace w
                 ++ themeSync (localStorage w)
                      (initialTheme (localStorage w !! "theme")) net |})
  /\ (truthy_opt (localStorage w !! "theme") = true ->
      localStorage (snd (initTheme net w)) = localStorage w).
Proof.
  assert (E : initTheme net w
              = applyTheme (initialTheme (localStorage w !! "theme")) net w).
  { unfold initTheme, bind, getItem. simpl. now rewrite or_else_spec. }
  split; [rewrite E; apply applyTheme_run |].
  intros H. rewrite E, applyTheme_run. simpl.
  apply insert_id.
  destruct (localStorage w !! "theme") as [[|c s]|]; try discriminate.
  reflexivity.
Qed.

(** The theorem at a page whose stored theme is [dark]. *)
Lemma initTheme_applies_stored_witness :
  truthy_opt (localStorage (start (<["theme" := darkTheme]> ∅)) !! "theme") = true
  /\ localStorage (snd (initTheme (Rejected []) (start (<["theme" := darkTheme]> ∅))))
     = <["theme" := darkTheme]> ∅.
Proof.
  split; [reflexivity |].
  destruct (initTheme_applies_stored (Rejected [])
              (start (<["theme" := darkTheme]> ∅))) as [_ H].
  apply H. reflexivity.
Defined.

(** ** The session over several handlers *)

Lemma logout_storage net w :
  localStorage (snd (logoutBtn_click net w))
  = delete "theme" (delete "token" (delete "username" (localStorage w))).
Proof. destruct net; reflexivity. Qed.

Lemma sessionCheck_navigations storage :
  navigations (trace (snd (sessionCheck (start storage))))
  = if truthy_opt (storage !! "username") && truthy_opt (storage !! "token")
    then [] else [loginPage].
Proof.
  unfold sessionCheck, bind, getItem. simpl.
  destruct (truthy_opt (storage !! "username")),
           (truthy_opt (storage !! "token")); reflexivity.
Qed.

(** X20.  After a logout, however its notification went, a page that
    loads finds no session: the session check redirects to the login
    page, and the theme it starts with is [light], applied without any
    request to the server. *)
Theorem logout_then_page_load (net net' : outcome unit) (w : world) :
  navigations
    (trace (snd (sessionCheck (start (localStorage (snd (logoutBtn_click net w)))))))
  = [loginPage]
  /\ initTheme net' (start (localStorage (snd (logoutBtn_click net w))))
     = (Normal {| dataTheme := lightTheme; toggleText := moonLabel |},
        start (<["theme" := lightTheme]>
                 (localStorage (snd (logoutBtn_click net w))))).
Proof.
  rewrite logout_storage. split.
  - rewrite sessionCheck_navigations. by simplify_map_eq.
  - unfold initTheme, bind, getItem. simpl.
    rewrite lookup_delete_eq. simpl. rewrite applyTheme_run.
    unfold themeSync. simpl.
    rewrite lookup_delete_ne, lookup_delete_ne, lookup_delete_eq by done.
    reflexivity.
Qed.

(** X21.  A successful login is what the session check looks for: once
    the login handler has stored its two values, the check on that
    storage does not redirect, whatever the response supplied; and after
    a logout from there it redirects again. *)
Theorem login_check_logout_check
    (usernameField passwordField responseText : jsstring)
    (data : loginBody) (net : outcome unit) (w : world) :
  truthy (trim usernameField) = true ->
  truthy (trim passwordField) = true ->
  navigations
    (trace (snd (sessionCheck
       (start (localStorage
          (snd (loginBtn_click usernameField passwordField
                  (Resolved {| ok := true; text := responseText;
                               json := Normal data |})
                  w)))))))
  = []
  /\ navigations
       (trace (snd (sessionCheck
          (start (localStorage
             (snd (logoutBtn_click net
                (snd (loginBtn_click usernameField passwordField
                        (Resolved {| ok := true; text := responseText;
                                     json := Normal data |})
                        w))))))))) 
     = [loginPage].
Proof.
  intros Hu Hp. split; [now apply login_then_sessionCheck |].
  rewrite logout_storage, sessionCheck_navigations. by simplify_map_eq.
Qed.

(** The theorem at a login whose response has neither field. *)
Lemma login_check_logout_check_witness :
  truthy (trim (lit "alice")) = true
  /\ truthy (trim (lit "secret")) = true
  /\ navigations
       (trace (snd (sessionCheck
          (start (localStorage
             (snd (loginBtn_click (lit "alice") (lit "secret")
                     (Resolved {| ok := true; text := [];
                                  json := Normal {| data_token := None;
                                                    data_username := None |} |})
                     (start ∅))))))))
     = [].
Proof.
  split; [reflexivity |]. split; [reflexivity |].
  destruct (login_check_logout_check (lit "alice") (lit "secret") []
              {| data_token := None; data_username := None |}
              (Rejected []) (start ∅)) as [H _]; [reflexivity | reflexivity |].
  exact H.
Defined.

(** X22.  A successful password change ends the session: the server's
    confirmation (or the generic one when the response has none, or an
    empty one) is shown in one alert, and a page that loads afterwards is
    sent to the login page by the session check. *)
Theorem changePwd_success_ends_session
    (oldAnswer newAnswer : option jsstring) (responseText : jsstring)
    (data : pwdBody) (w : world) :
  truthy_opt (localStorage w !! "username") = true ->
  truthy_opt oldAnswer = true ->
  truthy_opt newAnswer = true ->
  alerts (trace (snd (changePwdBtn_click oldAnswer newAnswer
                        (Resolved {| ok := true; text := responseText;
                                     json := Normal data |}) w)))
  = alerts (trace w)
    ++ [match data_message data with
        | Some [] => msgChanged
        | Some s => s
        | None => msgChanged
        end]
  /\ navigations
       (trace (snd (sessionCheck
          (start (localStorage
             (snd (changePwdBtn_click oldAnswer newAnswer
                     (Resolved {| ok := true; text := responseText;
                                  json := Normal data |}) w)))))))
     = [loginPage].
Proof.
  intros Hu Ho Hn.
  unfold changePwdBtn_click, bind, getItem. rewrite Hu, Ho, Hn.
  unfold tryCatch, fetch, bind, emit, throw, readJson, ret, removeItem. simpl.
  split.
  - rewrite !alerts_app, or_else_spec. simpl. now rewrite !app_nil_r.
  - rewrite sessionCheck_navigations. by simplify_map_eq.
Qed.

(** The theorem at a logged-in user and a response with no message. *)
Lemma changePwd_success_ends_session_witness :
  truthy_opt
    (localStorage
       (start (<["username" := lit "alice"]> (<["token" := lit "abc"]> ∅)))
     !! "username") = true
  /\ alerts
       (trace (snd (changePwdBtn_click (Some (lit "old")) (Some (lit "new"))
          (Resolved {| ok := true; text := [];
                       json := Normal {| data_error := None;
                                         data_message := None |} |})
          (start (<["username" := lit "alice"]> (<["token" := lit "abc"]> ∅))))))
     = [msgChanged].
Proof.
  split; [reflexivity |].
  destruct (changePwd_success_ends_session (Some (lit "old")) (Some (lit "new")) []
              {| data_error := None; data_message := None |}
              (start (<["username" := lit "alice"]> (<["token" := lit "abc"]> ∅))))
    as [H _]; [reflexivity | reflexivity | reflexivity |].
  exact H.
Defined.
